(** * A chat message pipeline: models, durable queue and socket handlers

    Shallow embedding of
      - [src/models/Chat.js]   (Mongoose schemas [Chat] and [Message]),
      - [src/messagequeue.js]  (class [MessageQueue] over amqplib),
      - [src/server.js]        (socket.io event handlers),
    followed by the properties established about them.

    Conventions.  A JavaScript value travelling over a socket or a queue is
    a [jsval]; an object keeps its properties in insertion order.  Library
    calls (amqplib, socket.io, console, timers, Mongoose [save]) are recorded
    as [effect]s in a trace, in program order; whether a fallible library
    call resolves or rejects is read from a [runtime] record, as are the
    built-ins [JSON.parse], [JSON.stringify], string interpolation and the
    clock.  An [async] function is run to completion: the interleaving of
    other handlers at an [await] is not modelled. *)

From stdpp Require Import base gmap list strings.
From Stdlib Require Import ZArith DecimalString.

Local Open Scope list_scope.

(** ** JavaScript values *)

(** Numbers are the integers: fractions, [NaN] and the infinities are not
    represented. *)

#[warnings="-register-all"]
Inductive jsval : Type :=
| JUndefined
| JNull
| JBool (b : bool)
| JNum (n : Z)
| JStr (s : string)
| JDate (ms : Z)
| JArr (elems : list jsval)
| JObj (props : list (string * jsval)).

(** [o[k]] on an own-property list; a missing property reads [undefined]. *)
Fixpoint lookup_prop (k : string) (props : list (string * jsval)) : jsval :=
  match props with
  | [] => JUndefined
  | (k', v) :: rest => if String.eqb k k' then v else lookup_prop k rest
  end.

(** [k in o] for an own property. *)
Definition has_prop (k : string) (v : jsval) : bool :=
  match v with
  | JObj props => bool_decide (k ∈ props.*1)
  | _ => false
  end.

(** ToBoolean, as used by [||], [!] and [if]. *)
Definition truthy (v : jsval) : bool :=
  match v with
  | JUndefined | JNull => false
  | JBool b => b
  | JNum n => negb (n =? 0)%Z
  | JStr s => negb (String.eqb s "")
  | JDate _ | JArr _ | JObj _ => true
  end.

(** [Object.keys(v)] for an object. *)
Definition JObj_keys (v : jsval) : list string :=
  match v with
  | JObj props => props.*1
  | _ => []
  end.

(** [a || b] *)
Definition js_or (a b : jsval) : jsval := if truthy a then a else b.

(** ** models/Chat.js *)

Module Chat.

(** A Mongoose [ObjectId]; [toString] is its hexadecimal rendering, which is
    also what Mongoose compares when it looks an id up in an array. *)
Record ObjectId : Type := mkObjectId { toString : string }.

#[global] Instance ObjectId_eq_dec : EqDecision ObjectId.
Proof. solve_decision. Defined.

(** The fields of [ChatSchema]. *)
Record chat : Type := mkChat {
  name : option string;
  isGroup : bool;
  participants : list ObjectId;
  admins : list ObjectId;
  createdBy : option ObjectId;
  createdAt : Z;
  lastActivity : Z;
  avatar : option string;
  description : string
}.

Definition set_participants (ps : list ObjectId) (this : chat) : chat :=
  {| name := name this; isGroup := isGroup this; participants := ps;
     admins := admins this; createdBy := createdBy this;
     createdAt := createdAt this; lastActivity := lastActivity this;
     avatar := avatar this; description := description this |}.

(** Calls into the storage layer. *)
Inductive db_call : Type :=
| Save (doc : chat).

(** [this.participants.includes(userId)] *)
Fixpoint includes (arr : list ObjectId) (userId : ObjectId) : bool :=
  match arr with
  | [] => false
  | id :: rest => if decide (id = userId) then true else includes rest userId
  end.

(** [this.participants.push(userId)] *)
Definition push (arr : list ObjectId) (userId : ObjectId) : list ObjectId :=
  arr ++ [userId].

(** [ChatSchema.methods.addParticipant]: the document after the call, and
    the storage calls made. *)
Definition addParticipant (userId : ObjectId) (this : chat) : chat * list db_call :=
  if negb (includes (participants this) userId) then
    let this' := set_participants (push (participants this) userId) this in
    (this', [Save this'])
  else (this, []).

(** [ChatSchema.methods.removeParticipant] *)
Definition removeParticipant (userId : ObjectId) (this : chat) : chat * list db_call :=
  if includes (participants this) userId then
    let this' :=
      set_participants
        (filter (λ id, toString id ≠ toString userId) (participants this)) this in
    (this', [Save this'])
  else (this, []).

(** *** MessageSchema *)

Record attachment : Type := mkAttachment {
  att_type : option string;
  att_url : option string;
  att_thumbnail : option string;
  att_name : option string;
  att_size : option Z
}.

Definition attachment_types : list string :=
  ["image"; "video"; "audio"; "document"; "location"].

Record receipt : Type := mkReceipt {
  receipt_user : ObjectId;
  receipt_timestamp : Z
}.

Record message : Type := mkMessage {
  chatId : option ObjectId;
  sender : option ObjectId;
  content : option string;
  attachments : option (list attachment);
  replyTo : option ObjectId;
  deliveredTo : list receipt;
  readBy : list receipt;
  deleted : bool
}.

(** The schema paths a validation error can be reported on. *)
Inductive path : Type :=
| PChatId
| PSender
| PContent
| PAttachmentType (index : nat).

#[global] Instance path_eq_dec : EqDecision path.
Proof. solve_decision. Defined.

(** [required: function() { return !this.attachments || this.attachments.length === 0; }] *)
Definition content_required (this : message) : bool :=
  match attachments this with
  | None => true
  | Some atts => Nat.eqb (length atts) 0
  end.

(** Mongoose's required check on an [ObjectId] path: a value is there. *)
Definition checkRequired_ObjectId (v : option ObjectId) : bool :=
  match v with Some _ => true | None => false end.

(** Mongoose's required check on a [String] path: a string of non-zero
    length. *)
Definition checkRequired_String (v : option string) : bool :=
  match v with
  | Some s => negb (Nat.eqb (String.length s) 0)
  | None => false
  end.

(** The [enum] validator runs on a value that is set. *)
Definition enum_ok (allowed : list string) (v : option string) : bool :=
  match v with
  | Some s => bool_decide (s ∈ allowed)
  | None => true
  end.

Fixpoint validate_attachments (i : nat) (atts : list attachment) : list path :=
  match atts with
  | [] => []
  | a :: rest =>
      (if enum_ok attachment_types (att_type a) then [] else [PAttachmentType i])
      ++ validate_attachments (S i) rest
  end.

(** Document validation against [MessageSchema]: the paths in error.  The
    document is valid when there is none; the order in which Mongoose
    reports them is not modelled. *)
Definition validate (this : message) : list path :=
  (if checkRequired_ObjectId (chatId this) then [] else [PChatId])
  ++ (if checkRequired_ObjectId (sender this) then [] else [PSender])
  ++ (if content_required this && negb (checkRequired_String (content this))
      then [PContent] else [])
  ++ validate_attachments 0 (default [] (attachments this)).

Definition valid (this : message) : bool :=
  match validate this with [] => true | _ => false end.

End Chat.

(** ** Effects, runtime and state *)

(** The functions handed to [setTimeout]. *)
Inductive callback : Type :=
| CbInitialize.

(** The functions handed to [channel.consume]. *)
Inductive consumer : Type :=
| OnChatMessage
| OnNotification.

Inductive amqp_connection : Type :=
| AmqpConnection (url : string).

Inductive amqp_channel : Type :=
| AmqpChannel (conn : amqp_connection).

(** A delivery handed to a consumer callback: the content buffer and the
    handle that [ack] and [nack] refer to. *)
Record queue_msg : Type := mkQueueMsg {
  msg_content : string;
  deliveryTag : Z
}.

Inductive exn : Type :=
| JsError (message : string)
| TypeError (what : string)
| SyntaxError
| AmqpError (operation : string).

(** Library calls, in the order the program makes them. *)
Inductive effect : Type :=
| ConsoleLog (line : string)
| ConsoleError (label : string) (error : exn)
| AmqpConnect (url : string)
| CreateChannel (conn : amqp_connection)
| AssertQueue (queue : string) (durable : bool)
| SendToQueue (queue : string) (content : string) (persistent : bool)
| Consume (queue : string) (cb : consumer)
| Ack (msg : queue_msg)
| Nack (msg : queue_msg)
| SetTimeout (cb : callback) (delay : Z)
| IoToEmit (room event : string) (payload : jsval)
| IoEmit (event : string) (payload : jsval)
| SocketToEmit (socket room event : string) (payload : jsval)
| SocketEmit (socket event : string) (payload : jsval)
| SocketJoin (socket room : string).

(** What the program reads from its surroundings: the built-ins it does not
    define, the clock, and whether each fallible amqplib call goes through.
    [JSON_parse] answers [None] where [JSON.parse] throws; [JSON_stringify]
    is the text [JSON.stringify] gives for a value other than [undefined];
    [Number_exponential] is the exponent form of a number of magnitude
    [1e21] or more. *)
Record runtime : Type := mkRuntime {
  JSON_parse : string → option jsval;
  JSON_stringify : jsval → string;
  Date_toString : Z → string;
  Number_exponential : Z → string;
  clock : nat → Z;
  connect_resolves : string → bool;
  createChannel_resolves : bool;
  assertQueue_resolves : string → bool;
  sendToQueue_returns : string → string → bool
}.

(** The mutable state: the two fields of the [MessageQueue] object, pending
    timers, socket.io's room and socket tables, the stored messages, and how
    often the clock has been read. *)
Record state : Type := mkState {
  connection : option amqp_connection;
  channel : option amqp_channel;
  timers : list (callback * Z);
  rooms : gmap string (list string);
  sockets : gset string;
  db_messages : gmap string Chat.message;
  clock_reads : nat
}.

Definition set_connection (c : option amqp_connection) (st : state) : state :=
  mkState c (channel st) (timers st) (rooms st) (sockets st) (db_messages st)
          (clock_reads st).

Definition set_channel (c : option amqp_channel) (st : state) : state :=
  mkState (connection st) c (timers st) (rooms st) (sockets st) (db_messages st)
          (clock_reads st).

Definition set_timers (ts : list (callback * Z)) (st : state) : state :=
  mkState (connection st) (channel st) ts (rooms st) (sockets st)
          (db_messages st) (clock_reads st).

Definition set_rooms (r : gmap string (list string)) (st : state) : state :=
  mkState (connection st) (channel st) (timers st) r (sockets st)
          (db_messages st) (clock_reads st).

Definition set_clock_reads (n : nat) (st : state) : state :=
  mkState (connection st) (channel st) (timers st) (rooms st) (sockets st)
          (db_messages st) n.

(** ** The monad of handlers: trace, state and exceptions *)

Inductive result (A : Type) : Type :=
| Returned (a : A)
| Thrown (e : exn).

Arguments Returned {A} a.
Arguments Thrown {A} e.

Definition M (A : Type) : Type := state → list effect * state * result A.

Definition ret {A : Type} (a : A) : M A := λ st, ([], st, Returned a).

Definition bind {A B : Type} (m : M A) (k : A → M B) : M B :=
  λ st,
    match m st with
    | (tr, st', Returned a) =>
        match k a st' with
        | (tr', st'', r) => (tr ++ tr', st'', r)
        end
    | (tr, st', Thrown e) => (tr, st', Thrown e)
    end.

Notation "'let*' x ':=' m 'in' k" := (bind m (λ x, k))
  (at level 10, x name, m at level 100, k at level 200).
Notation "m >> k" := (bind m (λ _, k)) (at level 65, right associativity).

Definition throw {A : Type} (e : exn) : M A := λ st, ([], st, Thrown e).

(** [try { body } catch (error) { handler }] *)
Definition try_catch {A : Type} (body : M A) (handler : exn → M A) : M A :=
  λ st,
    match body st with
    | (tr, st', Returned a) => (tr, st', Returned a)
    | (tr, st', Thrown e) =>
        match handler e st' with
        | (tr', st'', r) => (tr ++ tr', st'', r)
        end
    end.

(** A call to an [async] function whose promise nobody awaits: a rejection
    does not reach the caller. *)
Definition no_await {A : Type} (m : M A) : M unit :=
  λ st, match m st with (tr, st', _) => (tr, st', Returned tt) end.

Definition emit (e : effect) : M unit := λ st, ([e], st, Returned tt).
Definition get : M state := λ st, ([], st, Returned st).
Definition modify (f : state → state) : M unit := λ st, ([], f st, Returned tt).

(** [arr.forEach(f)] *)
Fixpoint forEach {A : Type} (f : A → M unit) (arr : list A) : M unit :=
  match arr with
  | [] => ret tt
  | x :: rest => f x >> forEach f rest
  end.

Definition trace_of {A : Type} (r : list effect * state * result A) : list effect := r.1.1.
Definition state_of {A : Type} (r : list effect * state * result A) : state := r.1.2.
Definition result_of {A : Type} (r : list effect * state * result A) : result A := r.2.

Definition returned {A : Type} (r : result A) : bool :=
  match r with Returned _ => true | Thrown _ => false end.

(** ** String conversion *)

(** An integer written out in decimal digits. *)
Definition decimal (n : Z) : string :=
  NilZero.string_of_int (Z.to_int n).

Fixpoint join (sep : string) (parts : list string) : string :=
  match parts with
  | [] => ""
  | [p] => p
  | p :: rest => p +:+ sep +:+ join sep rest
  end.

Section Interpolation.

Variable R : runtime.

(** [Number.prototype.toString]: decimal digits below [1e21] in magnitude,
    exponent form, which the runtime supplies, from there on. *)
Definition Number_toString (n : Z) : string :=
  if (Z.abs n <? 10 ^ 21)%Z then decimal n else Number_exponential R n.

(** The string a template literal [`${v}`] puts in place of [v]. *)
Fixpoint ToString (v : jsval) : string :=
  match v with
  | JUndefined => "undefined"
  | JNull => "null"
  | JBool true => "true"
  | JBool false => "false"
  | JNum n => Number_toString n
  | JStr s => s
  | JDate ms => Date_toString R ms
  | JArr elems =>
      join ","
        (map (λ e, match e with
                   | JUndefined | JNull => ""
                   | _ => ToString e
                   end) elems)
  | JObj _ => "[object Object]"
  end.

End Interpolation.

(** Reading a property off a value: [null] and [undefined] have none to
    read, primitives and arrays have none of the names used here. *)
Definition get_prop (v : jsval) (k : string) : M jsval :=
  match v with
  | JUndefined | JNull =>
      throw (TypeError ("Cannot read properties of null or undefined: " +:+ k))
  | JObj props => ret (lookup_prop k props)
  | _ => ret JUndefined
  end.

(** ** messagequeue.js *)

Module MessageQueue.

Section WithRuntime.

Variable R : runtime.

(** *** amqplib *)

Definition amqp_connect (url : string) : M amqp_connection :=
  emit (AmqpConnect url) >>
  if connect_resolves R url then ret (AmqpConnection url)
  else throw (AmqpError "connect").

Definition createChannel (conn : amqp_connection) : M amqp_channel :=
  emit (CreateChannel conn) >>
  if createChannel_resolves R then ret (AmqpChannel conn)
  else throw (AmqpError "createChannel").

Definition assertQueue (ch : amqp_channel) (queue : string) (durable : bool) : M unit :=
  emit (AssertQueue queue durable) >>
  if assertQueue_resolves R queue then ret tt
  else throw (AmqpError "assertQueue").

Definition sendToQueue (ch : amqp_channel) (queue content : string)
    (persistent : bool) : M unit :=
  emit (SendToQueue queue content persistent) >>
  if sendToQueue_returns R queue content then ret tt
  else throw (AmqpError "sendToQueue").

(** [this.channel.<method>]: a method call on [null] is a [TypeError]. *)
Definition this_channel : M amqp_channel :=
  let* st := get in
  match channel st with
  | Some ch => ret ch
  | None => throw (TypeError "Cannot read properties of null")
  end.

Definition consume (queue : string) (cb : consumer) : M unit :=
  let* ch := this_channel in emit (Consume queue cb).

(** [ack] and [nack] write to the channel and return nothing; on an
    established channel they are taken not to throw. *)
Definition ack (msg : queue_msg) : M unit :=
  let* ch := this_channel in emit (Ack msg).

Definition nack (msg : queue_msg) : M unit :=
  let* ch := this_channel in emit (Nack msg).

Definition setTimeout (cb : callback) (delay : Z) : M unit :=
  emit (SetTimeout cb delay) >>
  modify (λ st, set_timers (timers st ++ [(cb, delay)]) st).

(** *** class MessageQueue *)

(** [Buffer.from(JSON.stringify(v))].  For [undefined], [JSON.stringify]
    answers [undefined], which [Buffer.from] refuses with a [TypeError]. *)
Definition to_buffer (v : jsval) : M string :=
  match v with
  | JUndefined => throw (TypeError "The first argument must be of type string")
  | _ => ret (JSON_stringify R v)
  end.

Definition queueMessage (message : jsval) : M unit :=
  let* st := get in
  match channel st with
  | None => throw (JsError "Message queue not initialized")
  | Some ch =>
      let* content := to_buffer message in
      sendToQueue ch "chat_messages" content true
  end.

Definition queueNotification (notification : jsval) : M unit :=
  let* st := get in
  match channel st with
  | None => throw (JsError "Message queue not initialized")
  | Some ch =>
      let* content := to_buffer notification in
      sendToQueue ch "notifications" content true
  end.

Definition processMessage (message : jsval) : M unit :=
  emit (ConsoleLog ("Processing message: " +:+ JSON_stringify R message)) >>
  let* id := get_prop message "id" in
  let* chatId := get_prop message "chatId" in
  let* recipients := get_prop message "recipients" in
  let notification :=
    JObj [("type", JStr "message_delivered");
          ("messageId", id);
          ("chatId", chatId);
          ("recipients", recipients)] in
  queueNotification notification.

Definition processNotification (notification : jsval) : M unit :=
  emit (ConsoleLog ("Processing notification: " +:+ JSON_stringify R notification)).

(** [JSON.parse(msg.content.toString())] *)
Definition parse_content (msg : queue_msg) : M jsval :=
  match JSON_parse R (msg_content msg) with
  | Some v => ret v
  | None => throw SyntaxError
  end.

(** The callback registered on [chat_messages]; [None] is the [null] that
    amqplib passes when the consumer is cancelled. *)
Definition on_chat_message (msg : option queue_msg) : M unit :=
  match msg with
  | Some msg =>
      try_catch
        (let* message := parse_content msg in
         processMessage message >>
         ack msg)
        (λ error,
           emit (ConsoleError "Error processing message:" error) >>
           nack msg)
  | None => ret tt
  end.

(** The callback registered on [notifications]. *)
Definition on_notification (msg : option queue_msg) : M unit :=
  match msg with
  | Some msg =>
      try_catch
        (let* notification := parse_content msg in
         processNotification notification >>
         ack msg)
        (λ error,
           emit (ConsoleError "Error processing notification:" error) >>
           nack msg)
  | None => ret tt
  end.

Definition startMessageProcessing : M unit :=
  consume "chat_messages" OnChatMessage >>
  consume "notifications" OnNotification.

Definition initialize : M unit :=
  try_catch
    (let* conn := amqp_connect "amqp://localhost" in
     modify (set_connection (Some conn)) >>
     let* ch := createChannel conn in
     modify (set_channel (Some ch)) >>
     assertQueue ch "chat_messages" true >>
     assertQueue ch "notifications" true >>
     emit (ConsoleLog "Message queue system initialized") >>
     no_await startMessageProcessing)
    (λ error,
       emit (ConsoleError "Failed to initialize message queue:" error) >>
       setTimeout CbInitialize 5000).

(** [new MessageQueue()] *)
Definition constructor : M unit :=
  modify (set_connection None) >>
  modify (set_channel None) >>
  no_await initialize.

Definition run_consumer (cb : consumer) (msg : option queue_msg) : M unit :=
  match cb with
  | OnChatMessage => on_chat_message msg
  | OnNotification => on_notification msg
  end.

Definition run_callback (cb : callback) : M unit :=
  match cb with
  | CbInitialize => initialize
  end.

End WithRuntime.

(** The timer loop: each round takes the oldest pending timer and runs its
    callback against the surroundings of that round.  The list gives the
    surroundings round by round; the loop stops when no timer is pending. *)
Fixpoint fire_timers (rounds : list runtime) (st : state) : list effect * state :=
  match rounds with
  | [] => ([], st)
  | R :: rest =>
      match timers st with
      | [] => ([], st)
      | (cb, _) :: pending =>
          match run_callback R cb (set_timers pending st) with
          | (tr, st', _) =>
              match fire_timers rest st' with
              | (tr', st'') => (tr ++ tr', st'')
              end
          end
      end
  end.

(** Start-up: the constructor in the first surroundings, then the timer
    loop over the following ones. *)
Definition startup (R0 : runtime) (rounds : list runtime) (st : state)
    : list effect * state :=
  match constructor R0 st with
  | (tr, st', _) =>
      match fire_timers rounds st' with
      | (tr', st'') => (tr ++ tr', st'')
      end
  end.

End MessageQueue.

(** ** server.js *)

Module Server.

(** A connected socket, with the user the authentication middleware
    attached to it. *)
Record socket : Type := mkSocket {
  socket_id : string;
  user : jsval
}.

(** A property of an object the program built itself. *)
Definition prop (v : jsval) (k : string) : jsval :=
  match v with
  | JObj props => lookup_prop k props
  | _ => JUndefined
  end.

Definition verifyToken (token : jsval) : jsval :=
  JObj [("id", JStr "user123"); ("name", JStr "Test User")].

Definition getUserChatRooms (userId : jsval) : list string :=
  ["room1"; "room2"].

(** socket.io keeps a room as the set of its socket ids, in the order they
    joined. *)
Definition add_to_room (sid room : string) (rs : gmap string (list string))
    : gmap string (list string) :=
  let ids := default [] (rs !! room) in
  if bool_decide (sid ∈ ids) then rs else <[room := ids ++ [sid]]> rs.

(** [socket.join(room)] *)
Definition socket_join (sid room : string) : M unit :=
  emit (SocketJoin sid room) >>
  modify (λ st, set_rooms (add_to_room sid room (rooms st)) st).

Section WithRuntime.

Variable R : runtime.

(** [Date.now()] and [new Date()]: the next reading of the clock. *)
Definition Date_now : M Z :=
  let* st := get in
  modify (set_clock_reads (S (clock_reads st))) >>
  ret (clock R (clock_reads st)).

(** *** Helper functions *)

Definition storeMessageDeliveryStatus (message : jsval) : M unit :=
  emit (ConsoleLog ("Storing delivery status for message: "
                    +:+ ToString R (prop message "id"))).


Definition createNewChatRoom (name participants isGroup creatorId : jsval) : M jsval :=
  let* now := Date_now in
  let* created := Date_now in
  let chatRoom :=
    JObj [("id", JStr ("chat_" +:+ Number_toString R now));
          ("name", name);
          ("participants", participants);
          ("isGroup", isGroup);
          ("createdBy", creatorId);
          ("createdAt", JDate created)] in
  emit (ConsoleLog ("New chat room created: " +:+ ToString R (prop chatRoom "id"))) >>
  ret chatRoom.

Definition updateUserStatus (userId : jsval) (status : string) : M unit :=
  emit (ConsoleLog ("Updating status for user " +:+ ToString R userId
                    +:+ " to " +:+ status)).

(** [findUserSocket]: the first socket of the user's personal room, when
    the room exists and that socket is in the socket table. *)
Definition findUserSocket (userId : jsval) : M (option string) :=
  let* st := get in
  match rooms st !! ("user:" +:+ ToString R userId) with
  | Some userSockets =>
      match userSockets with
      | socketId :: _ =>
          if bool_decide (socketId ∈ sockets st) then ret (Some socketId)
          else ret None
      | [] => ret None
      end
  | None => ret None
  end.

(** *** The handlers of one connection *)

Section Connection.

Variable this : socket.

Definition userId : jsval := prop (user this) "id".

Definition on_connection : M unit :=
  emit (ConsoleLog ("User connected: " +:+ ToString R userId)) >>
  socket_join (socket_id this) ("user:" +:+ ToString R userId) >>
  forEach (λ room, socket_join (socket_id this) ("chat:" +:+ room))
          (getUserChatRooms userId).

Definition on_send_message (data : jsval) : M unit :=
  try_catch
    (let* chatId := get_prop data "chatId" in
     let* content := get_prop data "content" in
     let* attachments := get_prop data "attachments" in
     let* now := Date_now in
     let message :=
       JObj [("sender", userId);
             ("content", content);
             ("attachments", js_or attachments (JArr []));
             ("timestamp", JDate now);
             ("chatId", chatId)] in
     MessageQueue.queueMessage R message >>
     emit (IoToEmit ("chat:" +:+ ToString R chatId) "new_message" message) >>
     no_await (storeMessageDeliveryStatus message))
    (λ error,
       emit (SocketEmit (socket_id this) "error"
               (JObj [("message", JStr "Failed to send message")]))).



(** The body of [participants.forEach] in the [create_chat] handler. *)
Definition join_participant (chatRoom participantId : jsval) : M unit :=
  let* participantSocket := findUserSocket participantId in
  match participantSocket with
  | Some sid =>
      socket_join sid ("chat:" +:+ ToString R (prop chatRoom "id")) >>
      emit (SocketEmit sid "chat_created" chatRoom)
  | None => ret tt
  end.

Definition on_create_chat (data : jsval) : M unit :=
  try_catch
    (let* name := get_prop data "name" in
     let* participants := get_prop data "participants" in
     let* isGroup := get_prop data "isGroup" in
     let* chatRoom := createNewChatRoom name participants isGroup userId in
     match participants with
     | JArr ids => forEach (join_participant chatRoom) ids
     | _ => throw (TypeError "participants.forEach is not a function")
     end >>
     emit (SocketEmit (socket_id this) "chat_created" chatRoom))
    (λ error,
       emit (SocketEmit (socket_id this) "error"
               (JObj [("message", JStr "Failed to create chat")]))).

Definition on_disconnect : M unit :=
  emit (ConsoleLog ("User disconnected: " +:+ ToString R userId)) >>
  updateUserStatus userId "offline" >>
  emit (IoEmit "user_status_change"
          (JObj [("userId", userId); ("status", JStr "offline")])).

End Connection.

End WithRuntime.

End Server.

(** ** Delivery records, as [MessageSchema] stores them *)

Fixpoint receipt_time (uid : Chat.ObjectId) (rs : list Chat.receipt) : option Z :=
  match rs with
  | [] => None
  | r :: rest =>
      if decide (Chat.receipt_user r = uid) then Some (Chat.receipt_timestamp r)
      else receipt_time uid rest
  end.

(** The delivered-at timestamp of [(messageId, uid)], if set. *)
Definition delivered_at (st : state) (messageId : string) (uid : Chat.ObjectId)
    : option Z :=
  match db_messages st !! messageId with
  | Some m => receipt_time uid (Chat.deliveredTo m)
  | None => None
  end.


(** ** Observations on traces *)

Definition is_acknowledgement (e : effect) : bool :=
  match e with
  | Ack _ | Nack _ => true
  | _ => false
  end.

(** The acknowledgements a trace sends to the broker, in order. *)
Definition acknowledgements (tr : list effect) : list effect :=
  List.filter is_acknowledgement tr.

Definition is_connect (e : effect) : bool :=
  match e with
  | AmqpConnect _ => true
  | _ => false
  end.

(** How many connection attempts a trace makes. *)
Definition connect_attempts (tr : list effect) : nat :=
  length (List.filter is_connect tr).

(** The connection [initialize] asks for. *)
Definition localhost : amqp_connection := AmqpConnection "amqp://localhost".


(** Every step of [initialize] goes through in these surroundings. *)
Definition broker_up (R : runtime) : bool :=
  connect_resolves R "amqp://localhost"
  && createChannel_resolves R
  && assertQueue_resolves R "chat_messages"
  && assertQueue_resolves R "notifications".

(** The part of a consumer callback that precedes [ack]. *)
Definition chat_processing (R : runtime) (msg : queue_msg) : M unit :=
  let* message := MessageQueue.parse_content R msg in
  MessageQueue.processMessage R message.

Definition notification_processing (R : runtime) (msg : queue_msg) : M unit :=
  let* notification := MessageQueue.parse_content R msg in
  MessageQueue.processNotification R notification.

(** The Notification Envelope [processMessage] derives from a message. *)
Definition notification_of (message : jsval) : jsval :=
  JObj [("type", JStr "message_delivered");
        ("messageId", Server.prop message "id");
        ("chatId", Server.prop message "chatId");
        ("recipients", Server.prop message "recipients")].

Definition nullish (v : jsval) : bool :=
  match v with
  | JUndefined | JNull => true
  | _ => false
  end.

(** *** The values the socket handlers build *)

(** The state once the clock has been read one more time. *)
Definition after_clock_read (st : state) : state :=
  set_clock_reads (S (clock_reads st)) st.

Section Built.

Variable R : runtime.
Variable this : Server.socket.

(** The message object [send_message] builds from [data] when the clock has
    been read [clock_reads st] times. *)
Definition sent_message (data : jsval) (st : state) : jsval :=
  JObj [("sender", Server.userId this);
        ("content", Server.prop data "content");
        ("attachments", js_or (Server.prop data "attachments") (JArr []));
        ("timestamp", JDate (clock R (clock_reads st)));
        ("chatId", Server.prop data "chatId")].


Definition send_failed : jsval := JObj [("message", JStr "Failed to send message")].
Definition create_failed : jsval := JObj [("message", JStr "Failed to create chat")].

(** The room object [createNewChatRoom] returns. *)
Definition created_room (data : jsval) (st : state) : jsval :=
  JObj [("id", JStr ("chat_" +:+ Number_toString R (clock R (clock_reads st))));
        ("name", Server.prop data "name");
        ("participants", Server.prop data "participants");
        ("isGroup", Server.prop data "isGroup");
        ("createdBy", Server.userId this);
        ("createdAt", JDate (clock R (S (clock_reads st))))].

(** The socket [findUserSocket] answers for a user in a given state. *)
Definition user_socket (st : state) (userId : jsval) : option string :=
  match rooms st !! ("user:" +:+ ToString R userId) with
  | Some (socketId :: _) =>
      if bool_decide (socketId ∈ sockets st) then Some socketId else None
  | _ => None
  end.


End Built.


(** ** Sample data *)

Module Sample.

Definition dq : string := String (Ascii.ascii_of_nat 34) EmptyString.
Definition quote (s : string) : string := dq +:+ s +:+ dq.

(** [s] padded with zeros on the left to [width] characters. *)
Definition pad (width : nat) (s : string) : string :=
  String.concat "" (repeat "0" (width - String.length s)) +:+ s.

(** The civil date, [(year, month, day)], of a day counted from
    1970-01-01. *)
Definition civil_from_days (days : Z) : Z * Z * Z :=
  let z := (days + 719468)%Z in
  let era := (z / 146097)%Z in
  let doe := (z - era * 146097)%Z in
  let yoe := ((doe - doe / 1460 + doe / 36524 - doe / 146096) / 365)%Z in
  let doy := (doe - (365 * yoe + yoe / 4 - yoe / 100))%Z in
  let mp := ((5 * doy + 2) / 153)%Z in
  let d := (doy - (153 * mp + 2) / 5 + 1)%Z in
  let m := (if mp <? 10 then mp + 3 else mp - 9)%Z in
  let y := (yoe + era * 400 + (if m <=? 2 then 1 else 0))%Z in
  (y, m, d).

(** The time of day, [hh:mm:ss], of a count of milliseconds. *)
Definition clock_time (ms : Z) : string :=
  let r := (ms mod 86400000)%Z in
  pad 2 (decimal (r / 3600000)) +:+ ":"
  +:+ pad 2 (decimal ((r / 60000) mod 60)) +:+ ":"
  +:+ pad 2 (decimal ((r / 1000) mod 60)).

(** [Date.prototype.toISOString], for the years 0000 to 9999. *)
Definition toISOString (ms : Z) : string :=
  match civil_from_days (ms / 86400000) with
  | (y, m, d) =>
      pad 4 (decimal y) +:+ "-" +:+ pad 2 (decimal m) +:+ "-" +:+ pad 2 (decimal d)
      +:+ "T" +:+ clock_time ms +:+ "." +:+ pad 3 (decimal (ms mod 1000)) +:+ "Z"
  end.

Definition day_name (days : Z) : string :=
  nth (Z.to_nat ((days + 4) mod 7))
      ["Sun"; "Mon"; "Tue"; "Wed"; "Thu"; "Fri"; "Sat"] "".

Definition month_name (m : Z) : string :=
  nth (Z.to_nat (m - 1))
      ["Jan"; "Feb"; "Mar"; "Apr"; "May"; "Jun";
       "Jul"; "Aug"; "Sep"; "Oct"; "Nov"; "Dec"] "".

(** [Date.prototype.toString] of a process running in UTC, for the years
    0000 to 9999. *)
Definition Date_toString (ms : Z) : string :=
  match civil_from_days (ms / 86400000) with
  | (y, m, d) =>
      day_name (ms / 86400000) +:+ " " +:+ month_name m +:+ " "
      +:+ pad 2 (decimal d) +:+ " " +:+ pad 4 (decimal y) +:+ " "
      +:+ clock_time ms +:+ " GMT+0000 (Coordinated Universal Time)"
  end.

Fixpoint strip_zeros (rev_digits : list Ascii.ascii) : list Ascii.ascii :=
  match rev_digits with
  | c :: rest =>
      if Ascii.eqb c (Ascii.ascii_of_nat 48) then strip_zeros rest
      else rev_digits
  | [] => []
  end.

(** Exponent form, [d.ddde+x], of an integer of magnitude [1e21] or more
    that has at most 15 significant digits. *)
Definition exponential (n : Z) : string :=
  let digits := String.list_ascii_of_string (decimal (Z.abs n)) in
  let significant := rev (strip_zeros (rev digits)) in
  (if (n <? 0)%Z then "-" else "")
  +:+ match significant with
      | [] => "0"
      | [d] => String d ""
      | d :: more => String d "." +:+ String.string_of_list_ascii more
      end
  +:+ "e+" +:+ decimal (Z.of_nat (length digits - 1)).

(** A serializer for values whose strings need no escaping and whose
    numbers are below [1e21] in magnitude. *)
Fixpoint stringify (v : jsval) : string :=
  match v with
  | JUndefined | JNull => "null"
  | JBool true => "true"
  | JBool false => "false"
  | JNum n => decimal n
  | JStr s => quote s
  | JDate ms => quote (toISOString ms)
  | JArr elems => "[" +:+ join "," (map stringify elems) +:+ "]"
  | JObj props =>
      "{" +:+ join ","
        ((fix members (ps : list (string * jsval)) : list string :=
            match ps with
            | [] => []
            | (k, JUndefined) :: rest => members rest
            | (k, v') :: rest => (quote k +:+ ":" +:+ stringify v') :: members rest
            end) props) +:+ "}"
  end.

Definition alice : Chat.ObjectId := Chat.mkObjectId "a11ce".
Definition bob : Chat.ObjectId := Chat.mkObjectId "b0b".
Definition carol : Chat.ObjectId := Chat.mkObjectId "ca201".

Definition chat0 : Chat.chat :=
  Chat.mkChat None false [alice; bob; alice] [] (Some alice) 0 0 None "".

Definition photo : Chat.attachment :=
  Chat.mkAttachment (Some "image") (Some "http://files/1.png") None None None.

Definition photo_message : Chat.message :=
  Chat.mkMessage (Some alice) (Some bob) None (Some [photo]) None [] [] false.

Definition empty_message : Chat.message :=
  Chat.mkMessage (Some alice) (Some bob) None (Some []) None [] [] false.

(** A Message Envelope as a well-behaved producer would queue it. *)
Definition envelope : jsval :=
  JObj [("id", JStr "m1"); ("chatId", JStr "room1"); ("sender", JStr "alice");
        ("content", JStr "hi"); ("recipients", JArr [JStr "bob"])].

Definition delivery : queue_msg := mkQueueMsg (stringify envelope) 1.
Definition garbled : queue_msg := mkQueueMsg "{not json" 2.

Definition parse (s : string) : option jsval :=
  if String.eqb s (stringify envelope) then Some envelope
  else if String.eqb s (stringify (notification_of envelope))
       then Some (notification_of envelope)
       else None.

(** Surroundings in which the broker answers. *)
Definition runtime_up : runtime :=
  mkRuntime parse stringify Date_toString exponential
            (λ n, 1700000000000 + Z.of_nat n)%Z
            (λ _, true) true (λ _, true) (λ _ _, true).

(** Surroundings in which the broker cannot be reached. *)
Definition runtime_down : runtime :=
  mkRuntime parse stringify Date_toString exponential
            (λ n, 1700000000000 + Z.of_nat n)%Z
            (λ _, false) false (λ _, false) (λ _ _, false).

Definition stored_m1 : Chat.message :=
  Chat.mkMessage (Some (Chat.mkObjectId "room1")) (Some alice) (Some "hi")
                 (Some []) None [] [] false.

Definition fresh : state :=
  mkState None None [] ∅ ∅ ∅ 0.

(** An initialized instance with nobody connected and nothing stored. *)
Definition connected : state :=
  mkState (Some (AmqpConnection "amqp://localhost"))
          (Some (AmqpChannel (AmqpConnection "amqp://localhost")))
          [] ∅ ∅ ∅ 0.

(** An initialized instance: [user123] is connected on socket [s1], the
    message [m1] is stored with no receipt yet. *)
Definition running : state :=
  mkState (Some (AmqpConnection "amqp://localhost"))
          (Some (AmqpChannel (AmqpConnection "amqp://localhost")))
          []
          (<["user:user123" := ["s1"]]> ∅)
          {["s1"]}
          (<["m1" := stored_m1]> ∅)
          0.

Definition s1 : Server.socket :=
  Server.mkSocket "s1" (Server.verifyToken (JStr "token")).


(** Client payloads. *)
Definition hi : jsval := JObj [("chatId", JStr "room1"); ("content", JStr "hi")].

(** The message object built for [hi] sent by [user123] at the first clock
    reading. *)
Definition hi_message : jsval :=
  JObj [("sender", JStr "user123"); ("content", JStr "hi");
        ("attachments", JArr []); ("timestamp", JDate 1700000000000);
        ("chatId", JStr "room1")].

End Sample.

(** ** models/Chat.js: the User model *)

Module User.

(** An entry of [contacts].  The schema does not require [user], so a
    stored contact may lack it. *)
Record contact : Type := mkContact {
  contact_user : option Chat.ObjectId;
  nickname : option string;
  blocked : bool;
  muted : bool;
  addedAt : Z
}.

Record device : Type := mkDevice {
  deviceId : option string;
  platform : option string;
  lastLogin : option Z;
  pushToken : option string
}.

(** The fields of [UserSchema]. *)
Record user : Type := mkUser {
  username : option string;
  email : option string;
  password : option string;
  profilePicture : option string;
  status_text : string;
  status_presence : string;
  status_lastSeen : Z;
  contacts : list contact;
  devices : list device;
  settings_notifications : bool;
  privacy_lastSeen : string;
  privacy_profilePhoto : string;
  privacy_status : string;
  theme : string;
  createdAt : Z
}.

Definition set_contacts (cs : list contact) (this : user) : user :=
  mkUser (username this) (email this) (password this) (profilePicture this)
         (status_text this) (status_presence this) (status_lastSeen this)
         cs (devices this) (settings_notifications this) (privacy_lastSeen this)
         (privacy_profilePhoto this) (privacy_status this) (theme this)
         (createdAt this).

Definition set_blocked (b : bool) (c : contact) : contact :=
  mkContact (contact_user c) (nickname c) b (muted c) (addedAt c).

Inductive db_call : Type :=
| Save (doc : user).

(** [contact.user.toString() === userId.toString()]; calling [toString] on
    a missing [user] is a [TypeError]. *)
Definition same_user (userId : Chat.ObjectId) (c : contact) : result bool :=
  match contact_user c with
  | Some u => Returned (String.eqb (Chat.toString u) (Chat.toString userId))
  | None => Thrown (TypeError "Cannot read properties of undefined")
  end.

(** [this.contacts.find(contact => ...)]; [None] is [undefined]. *)
Fixpoint find (userId : Chat.ObjectId) (cs : list contact) : result (option contact) :=
  match cs with
  | [] => Returned None
  | c :: rest =>
      match same_user userId c with
      | Thrown e => Thrown e
      | Returned true => Returned (Some c)
      | Returned false => find userId rest
      end
  end.

(** [this.contacts.findIndex(contact => ...)], counting from [i]; [None] is
    [-1]. *)
Fixpoint findIndex_from (i : nat) (userId : Chat.ObjectId) (cs : list contact)
    : result (option nat) :=
  match cs with
  | [] => Returned None
  | c :: rest =>
      match same_user userId c with
      | Thrown e => Thrown e
      | Returned true => Returned (Some i)
      | Returned false => findIndex_from (S i) userId rest
      end
  end.

Definition findIndex (userId : Chat.ObjectId) (cs : list contact) : result (option nat) :=
  findIndex_from 0 userId cs.

(** [UserSchema.methods.addContact]; [now] is the [addedAt] default the
    pushed entry receives. *)
Definition addContact (now : Z) (userId : Chat.ObjectId) (nick : option string)
    (this : user) : result (user * list db_call) :=
  match find userId (contacts this) with
  | Thrown e => Thrown e
  | Returned (Some existingContact) => Returned (this, [])
  | Returned None =>
      let this' :=
        set_contacts (contacts this ++ [mkContact (Some userId) nick false false now])
                     this in
      Returned (this', [Save this'])
  end.

(** The shared body of [blockContact] and [unblockContact]:
    [this.contacts[contactIndex].blocked = b]. *)
Definition set_contact_blocked (b : bool) (userId : Chat.ObjectId) (this : user)
    : result (user * list db_call) :=
  match findIndex userId (contacts this) with
  | Thrown e => Thrown e
  | Returned (Some contactIndex) =>
      let this' := set_contacts (alter (set_blocked b) contactIndex (contacts this)) this in
      Returned (this', [Save this'])
  | Returned None => Returned (this, [])
  end.

(** [UserSchema.methods.blockContact] *)
Definition blockContact (userId : Chat.ObjectId) (this : user)
    : result (user * list db_call) :=
  set_contact_blocked true userId this.

(** [UserSchema.methods.unblockContact] *)
Definition unblockContact (userId : Chat.ObjectId) (this : user)
    : result (user * list db_call) :=
  set_contact_blocked false userId this.

(** The users the contacts name, in order. *)
Definition contact_users (this : user) : list (option Chat.ObjectId) :=
  map contact_user (contacts this).

(** Every contact names a user. *)
Definition well_formed (this : user) : Prop :=
  Forall (λ c, is_Some (contact_user c)) (contacts this).

End User.

(** ** models/Chat.js: validation of a chat, and the pre-save hook of a
    message *)

Module ChatDoc.

Inductive path : Type :=
| PName
| PCreatedBy.

#[global] Instance path_eq_dec : EqDecision path.
Proof. solve_decision. Defined.

(** [required: function() { return this.isGroup; }] *)
Definition name_required (this : Chat.chat) : bool := Chat.isGroup this.

(** Document validation against [ChatSchema]: the paths in error. *)
Definition validate (this : Chat.chat) : list path :=
  (if name_required this && negb (Chat.checkRequired_String (Chat.name this))
   then [PName] else [])
  ++ (if Chat.checkRequired_ObjectId (Chat.createdBy this) then [] else [PCreatedBy]).

Definition set_lastActivity (now : Z) (c : Chat.chat) : Chat.chat :=
  Chat.mkChat (Chat.name c) (Chat.isGroup c) (Chat.participants c) (Chat.admins c)
              (Chat.createdBy c) (Chat.createdAt c) now (Chat.avatar c)
              (Chat.description c).

(** What the hook does besides touching the store. *)
Inductive hook_event : Type :=
| HookConsoleError (label : string) (error : exn)
| HookNext.

Definition is_next (e : hook_event) : bool :=
  match e with
  | HookNext => true
  | HookConsoleError _ _ => false
  end.

(** [mongoose.model('Chat').findByIdAndUpdate(id, { lastActivity: now })] on
    the chats collection, keyed by the rendering of the id: the document
    with that id, if there is one, gets the field; the call rejects when the
    store cannot be reached. *)
Definition findByIdAndUpdate_lastActivity (store_up : bool)
    (id : option Chat.ObjectId) (now : Z) (chats : gmap string Chat.chat)
    : result (gmap string Chat.chat) :=
  if store_up then
    Returned (match id with
              | Some i => alter (set_lastActivity now) (Chat.toString i) chats
              | None => chats
              end)
  else Thrown (JsError "MongoNetworkError").

(** [MessageSchema.pre('save', ...)]: the chats collection afterwards and
    what the hook did, for a message that is new or not. *)
Definition pre_save (store_up : bool) (now : Z) (isNew : bool)
    (this : Chat.message) (chats : gmap string Chat.chat)
    : gmap string Chat.chat * list hook_event :=
  if isNew then
    match findByIdAndUpdate_lastActivity store_up (Chat.chatId this) now chats with
    | Returned chats' => (chats', [HookNext])
    | Thrown error =>
        (chats, [HookConsoleError "Error updating chat lastActivity:" error; HookNext])
    end
  else (chats, [HookNext]).

End ChatDoc.

(** ** messagequeue.js: close *)

Module QueueClose.

Inductive close_call : Type :=
| ChannelClose (ch : amqp_channel)
| ConnectionClose (conn : amqp_connection).

(** [MessageQueue.close]: the calls made and how the method ends, given
    whether each [close()] resolves.  The two fields are read, never
    written. *)
Definition close (channel_close_resolves connection_close_resolves : bool)
    (st : state) : list close_call * state * result unit :=
  match channel st with
  | Some ch =>
      if channel_close_resolves then
        match connection st with
        | Some conn =>
            ([ChannelClose ch; ConnectionClose conn], st,
             if connection_close_resolves then Returned tt
             else Thrown (AmqpError "connection.close"))
        | None => ([ChannelClose ch], st, Returned tt)
        end
      else ([ChannelClose ch], st, Thrown (AmqpError "channel.close"))
  | None =>
      match connection st with
      | Some conn =>
          ([ConnectionClose conn], st,
           if connection_close_resolves then Returned tt
           else Thrown (AmqpError "connection.close"))
      | None => ([], st, Returned tt)
      end
  end.

End QueueClose.

(** ** server.js: the authentication middleware *)

Module Auth.

(** What the middleware hands to [next]. *)
Inductive outcome : Type :=
| Accepted (user : jsval)
| Rejected (message : string).

(** [io.use(async (socket, next) => ...)] on [socket.handshake.auth]. *)
Definition middleware (auth : jsval) : outcome :=
  let token := Server.prop auth "token" in
  if negb (truthy token) then Rejected "Authentication error"
  else Accepted (Server.verifyToken token).

(** The socket the connection handler receives once the middleware let it
    through. *)
Definition admitted (sid : string) (auth : jsval) : option Server.socket :=
  match middleware auth with
  | Accepted u => Some (Server.mkSocket sid u)
  | Rejected _ => None
  end.

End Auth.

(** ** Further observations *)

(** A contact that names somebody other than [u]. *)
Definition names_other (u : Chat.ObjectId) (c : User.contact) : Prop :=
  ∃ v, User.contact_user c = Some v ∧ v ≠ u.

(** The sockets of a room, in joining order; a room that does not exist has
    none. *)
Definition room_members (st : state) (room : string) : list string :=
  default [] (rooms st !! room).

Definition is_consume (e : effect) : bool :=
  match e with
  | Consume _ _ => true
  | _ => false
  end.

(** The consumer registrations of a trace, in order. *)
Definition registrations (tr : list effect) : list effect :=
  List.filter is_consume tr.

(** How many consumers a trace registers. *)
Definition consumers_registered (tr : list effect) : nat :=
  length (List.filter is_consume tr).

(** ** Further sample data *)

Module Example.

Definition dave : User.user :=
  User.mkUser (Some "dave") (Some "dave@example.org") (Some "x") None
              "" "offline" 0
              [User.mkContact (Some Sample.alice) None false false 1;
               User.mkContact (Some Sample.bob) (Some "bobby") false true 2]
              [] true "everyone" "everyone" "everyone" "system" 0.

(** A user whose first contact lacks its [user]. *)
Definition erin : User.user :=
  User.set_contacts
    (User.mkContact None None false false 0 :: User.contacts dave) dave.

Definition group_chat : Chat.chat :=
  Chat.mkChat (Some "team") true [Sample.alice; Sample.bob] [] (Some Sample.alice)
              5 5 None "".

Definition direct_chat : Chat.chat :=
  Chat.mkChat None false [Sample.alice; Sample.bob] [] (Some Sample.alice)
              5 5 None "".

Definition room1 : Chat.ObjectId := Chat.mkObjectId "room1".

Definition chats : gmap string Chat.chat :=
  <["room1" := group_chat]> (<["room2" := direct_chat]> ∅).

(** Surroundings in which the channel opens but queues cannot be declared. *)
Definition runtime_half : runtime :=
  mkRuntime Sample.parse Sample.stringify Sample.Date_toString Sample.exponential
            (λ n, 1700000000000 + Z.of_nat n)%Z
            (λ _, true) true (λ _, false) (λ _ _, true).

(** Surroundings whose parser reads back what [send_message] queued for
    [Sample.hi]: the date comes back as a string. *)
Definition hi_parsed : jsval :=
  JObj [("sender", JStr "user123"); ("content", JStr "hi");
        ("attachments", JArr []); ("timestamp", JStr "2023-11-14T22:13:20.000Z");
        ("chatId", JStr "room1")].

Definition runtime_loop : runtime :=
  mkRuntime (λ s, if String.eqb s (Sample.stringify Sample.hi_message)
                  then Some hi_parsed else None)
            Sample.stringify Sample.Date_toString Sample.exponential
            (λ n, 1700000000000 + Z.of_nat n)%Z
            (λ _, true) true (λ _, true) (λ _ _, true).


(** [s1] is known to the instance and nobody has joined anything yet. *)
Definition lobby : state :=
  mkState None None [] ∅ {["s1"]} ∅ 0.

Definition not_a_list : jsval :=
  JObj [("name", JStr "team"); ("participants", JStr "bob")].

End Example.

(** ** Proof steps *)

(** Unfolds the monad so that a handler applied to a state computes. *)
Ltac run_handler :=
  unfold bind, ret, emit, get, modify, throw, try_catch, no_await,
    trace_of, state_of, result_of; simpl.

(** Case analysis on membership in an explicit list. *)
Ltac in_list H :=
  repeat (apply elem_of_cons in H; destruct H as [H|H]; [try congruence|]);
  try (by apply elem_of_nil in H).

(** Membership in an explicit list. *)
Ltac here := repeat first [apply list_elem_of_here | apply list_elem_of_further].

(** * Properties *)

(** ** models/Chat.js: participants *)

Section Participants.

Implicit Types (this : Chat.chat) (u id : Chat.ObjectId) (arr : list Chat.ObjectId).

Lemma includes_elem_of arr u : Chat.includes arr u = true ↔ u ∈ arr.
Proof.
  induction arr as [|id arr IH]; simpl.
  - split; [discriminate | by intros ?%elem_of_nil].
  - rewrite elem_of_cons. destruct (decide (id = u)) as [->|Hne].
    + split; [by left | done].
    + rewrite IH. split; [by right | intros [E|?]; [by subst | done]].
Qed.

Lemma includes_false arr u : Chat.includes arr u = false ↔ u ∉ arr.
Proof.
  rewrite <- includes_elem_of.
  destruct (Chat.includes arr u); split; try done; intros H; by contradict H.
Qed.

Lemma toString_inj id u : Chat.toString id = Chat.toString u → id = u.
Proof. destruct id, u; simpl; congruence. Qed.

(** Comparing renderings, as [removeParticipant] does, keeps exactly the
    ids different from [u]. *)
Lemma filter_toString arr u :
  filter (λ id, Chat.toString id ≠ Chat.toString u) arr = filter (λ id, id ≠ u) arr.
Proof.
  apply list_filter_iff. intros id. split.
  - intros H ->. by apply H.
  - intros H E. by apply H, toString_inj.
Qed.

Lemma filter_absent arr u : u ∉ arr → filter (λ id, id ≠ u) arr = arr.
Proof.
  induction arr as [|id arr IH]; [done|].
  rewrite not_elem_of_cons. intros [Hne Hnotin].
  rewrite filter_cons_True by congruence. by rewrite IH.
Qed.

(** C9. [addParticipant(u)] leaves the document alone when [u] is already a
    participant and appends [u] once otherwise; [removeParticipant(u)] keeps,
    in order, exactly the participants different from [u], and does nothing
    when [u] is absent; removing a participant that was just added to a chat
    that did not have it restores the original list. *)
Theorem participants_add_remove this u :
  (u ∈ Chat.participants this → Chat.addParticipant u this = (this, []))
  ∧ (u ∉ Chat.participants this →
       Chat.participants (Chat.addParticipant u this).1
       = Chat.participants this ++ [u])
  ∧ Chat.participants (Chat.removeParticipant u this).1
    = filter (λ id, id ≠ u) (Chat.participants this)
  ∧ (u ∉ Chat.participants (Chat.removeParticipant u this).1)
  ∧ (u ∉ Chat.participants this → Chat.removeParticipant u this = (this, []))
  ∧ (u ∉ Chat.participants this →
       Chat.participants
         (Chat.removeParticipant u (Chat.addParticipant u this).1).1
       = Chat.participants this).
Proof.
  assert (Hrem : ∀ c, Chat.participants (Chat.removeParticipant u c).1
                      = filter (λ id, id ≠ u) (Chat.participants c)).
  { intros c. unfold Chat.removeParticipant.
    destruct (Chat.includes (Chat.participants c) u) eqn:E; simpl.
    - apply filter_toString.
    - symmetry. by apply filter_absent, includes_false. }
  assert (Hadd : u ∉ Chat.participants this →
                 Chat.participants (Chat.addParticipant u this).1
                 = Chat.participants this ++ [u]).
  { intros Hu%includes_false. unfold Chat.addParticipant. by rewrite Hu. }
  repeat split.
  - intros Hu%includes_elem_of. unfold Chat.addParticipant. by rewrite Hu.
  - exact Hadd.
  - apply Hrem.
  - rewrite Hrem, list_elem_of_filter. intros [Hne _]. by apply Hne.
  - intros Hu%includes_false. unfold Chat.removeParticipant. by rewrite Hu.
  - intros Hu. rewrite Hrem, (Hadd Hu), filter_app, (filter_absent _ _ Hu).
    rewrite filter_cons_False by (intros Hne; by apply Hne).
    by rewrite filter_nil, app_nil_r.
Qed.

Lemma participants_add_remove_witness :
  Chat.participants (Chat.addParticipant Sample.carol Sample.chat0).1
  = [Sample.alice; Sample.bob; Sample.alice; Sample.carol]
  ∧ Chat.addParticipant Sample.alice Sample.chat0 = (Sample.chat0, [])
  ∧ Chat.participants (Chat.removeParticipant Sample.alice Sample.chat0).1
    = [Sample.bob]
  ∧ Chat.participants
      (Chat.removeParticipant Sample.carol
         (Chat.addParticipant Sample.carol Sample.chat0).1).1
    = Chat.participants Sample.chat0.
Proof.
  destruct (participants_add_remove Sample.chat0 Sample.carol)
    as (_ & Hadd & _ & _ & _ & Hround).
  destruct (participants_add_remove Sample.chat0 Sample.alice)
    as (Hsame & _ & Hrem & _).
  assert (Hcarol : Sample.carol ∉ Chat.participants Sample.chat0).
  { apply includes_false. reflexivity. }
  assert (Halice : Sample.alice ∈ Chat.participants Sample.chat0).
  { apply includes_elem_of. reflexivity. }
  split; [exact (Hadd Hcarol)|].
  split; [exact (Hsame Halice)|].
  split; [rewrite Hrem; reflexivity|].
  exact (Hround Hcarol).
Defined.

End Participants.

(** ** models/Chat.js: message validation *)

Section Validation.

Implicit Types (m : Chat.message) (p : Chat.path).

Lemma validate_attachments_paths i atts p :
  p ∈ Chat.validate_attachments i atts → ∃ j, p = Chat.PAttachmentType j.
Proof.
  revert i. induction atts as [|a atts IH]; intros i; simpl.
  - by intros ?%elem_of_nil.
  - rewrite elem_of_app. intros [H|H]; [|by eapply IH].
    destruct (Chat.enum_ok _ _).
    + by apply elem_of_nil in H.
    + apply list_elem_of_singleton in H. by exists i.
Qed.

Lemma content_required_iff m :
  Chat.content_required m = true
  ↔ Chat.attachments m = None ∨ Chat.attachments m = Some [].
Proof.
  unfold Chat.content_required. destruct (Chat.attachments m) as [[|a atts]|]; simpl.
  - split; [by right | done].
  - split; [done | by intros [?|?]].
  - split; [by left | done].
Qed.

(** Membership of one of the three required paths in [validate m] is
    decided by its own check alone. *)
Lemma validate_required_path m p :
  (∀ j, p ≠ Chat.PAttachmentType j) →
  p ∈ Chat.validate m
  ↔ (p = Chat.PChatId ∧ Chat.chatId m = None)
    ∨ (p = Chat.PSender ∧ Chat.sender m = None)
    ∨ (p = Chat.PContent ∧ Chat.content_required m = true
       ∧ Chat.checkRequired_String (Chat.content m) = false).
Proof.
  intros Hp. unfold Chat.validate. rewrite !elem_of_app. split.
  - intros [H|[H|[H|H]]].
    + destruct (Chat.chatId m); simpl in H;
        [by apply elem_of_nil in H | apply list_elem_of_singleton in H; auto].
    + destruct (Chat.sender m); simpl in H;
        [by apply elem_of_nil in H | apply list_elem_of_singleton in H; auto].
    + destruct (Chat.content_required m); simpl in H;
        [|by apply elem_of_nil in H].
      destruct (Chat.checkRequired_String _); simpl in H;
        [by apply elem_of_nil in H | apply list_elem_of_singleton in H; auto].
    + apply validate_attachments_paths in H as [j ->]. by destruct (Hp j).
  - intros [[-> E]|[[-> E]|(-> & E1 & E2)]].
    + left. rewrite E. simpl. by apply list_elem_of_singleton.
    + right; left. rewrite E. simpl. by apply list_elem_of_singleton.
    + right; right; left. rewrite E1, E2. simpl. by apply list_elem_of_singleton.
Qed.

(** C10. Validation reports [content] exactly when the attachments list is
    empty or absent and no usable content is given; with at least one
    attachment a missing content is never reported; a message with neither
    is invalid; [chatId] and [sender] are reported exactly when missing, so
    a valid message has both. *)
Theorem message_content_required m :
  (Chat.PContent ∈ Chat.validate m
   ↔ (Chat.attachments m = None ∨ Chat.attachments m = Some [])
     ∧ Chat.checkRequired_String (Chat.content m) = false)
  ∧ (∀ a atts, Chat.attachments m = Some (a :: atts) →
       Chat.PContent ∉ Chat.validate m)
  ∧ (Chat.content m = None →
       Chat.attachments m = None ∨ Chat.attachments m = Some [] →
       Chat.valid m = false)
  ∧ (Chat.PChatId ∈ Chat.validate m ↔ Chat.chatId m = None)
  ∧ (Chat.PSender ∈ Chat.validate m ↔ Chat.sender m = None)
  ∧ (Chat.valid m = true → is_Some (Chat.chatId m) ∧ is_Some (Chat.sender m)).
Proof.
  assert (Hcontent : Chat.PContent ∈ Chat.validate m
            ↔ (Chat.attachments m = None ∨ Chat.attachments m = Some [])
              ∧ Chat.checkRequired_String (Chat.content m) = false).
  { rewrite validate_required_path by done. rewrite <- content_required_iff.
    split.
    - intros [[? _]|[[? _]|(_ & ? & ?)]]; done.
    - intros [? ?]. by right; right. }
  assert (Hchat : Chat.PChatId ∈ Chat.validate m ↔ Chat.chatId m = None).
  { rewrite validate_required_path by done.
    split; [intros [[_ ?]|[[? _]|[? _]]]; done | intros ?; by left]. }
  assert (Hsender : Chat.PSender ∈ Chat.validate m ↔ Chat.sender m = None).
  { rewrite validate_required_path by done.
    split; [intros [[? _]|[[_ ?]|[? _]]]; done | intros ?; by right; left]. }
  assert (Hvalid : ∀ p, p ∈ Chat.validate m → Chat.valid m = false).
  { intros p Hin. unfold Chat.valid. destruct (Chat.validate m); [|done].
    by apply elem_of_nil in Hin. }
  split; [exact Hcontent|]. split; [|split; [|split; [exact Hchat|split; [exact Hsender|]]]].
  - intros a atts E. rewrite Hcontent, E. intros [[?|?] _]; done.
  - intros Hnone Hatts. apply (Hvalid Chat.PContent), Hcontent.
    split; [done|]. by rewrite Hnone.
  - intros Hv. split.
    + destruct (Chat.chatId m) eqn:E; [done|].
      apply proj2 in Hchat. specialize (Hchat eq_refl).
      apply Hvalid in Hchat. congruence.
    + destruct (Chat.sender m) eqn:E; [done|].
      apply proj2 in Hsender. specialize (Hsender eq_refl).
      apply Hvalid in Hsender. congruence.
Qed.

Lemma message_content_required_witness :
  (Chat.PContent ∉ Chat.validate Sample.photo_message)
  ∧ Chat.valid Sample.photo_message = true
  ∧ Chat.valid Sample.empty_message = false
  ∧ is_Some (Chat.chatId Sample.photo_message).
Proof.
  destruct (message_content_required Sample.photo_message)
    as (_ & Hatt & _ & _ & _ & Hreq).
  destruct (message_content_required Sample.empty_message)
    as (_ & _ & Hneither & _).
  split; [exact (Hatt Sample.photo [] eq_refl)|].
  split; [reflexivity|].
  split; [exact (Hneither eq_refl (or_intror eq_refl))|].
  exact (proj1 (Hreq eq_refl)).
Defined.

End Validation.

(** ** messagequeue.js: enqueue, initialization and retry *)

Section Queue.

Variable R : runtime.

Implicit Types (st : state) (payload message : jsval) (msg : queue_msg).

(** What [initialize] does when every step goes through. *)
Lemma initialize_up st :
  broker_up R = true →
  MessageQueue.initialize R st
  = ([AmqpConnect "amqp://localhost";
      CreateChannel localhost;
      AssertQueue "chat_messages" true;
      AssertQueue "notifications" true;
      ConsoleLog "Message queue system initialized";
      Consume "chat_messages" OnChatMessage;
      Consume "notifications" OnNotification],
     set_channel (Some (AmqpChannel localhost))
       (set_connection (Some localhost) st),
     Returned tt).
Proof.
  unfold broker_up. rewrite !andb_true_iff. intros [[[H1 H2] H3] H4].
  unfold MessageQueue.initialize, MessageQueue.amqp_connect,
    MessageQueue.createChannel, MessageQueue.assertQueue,
    MessageQueue.startMessageProcessing, MessageQueue.consume,
    MessageQueue.this_channel.
  run_handler. rewrite H1. simpl. rewrite H2. simpl. rewrite H3. simpl.
  rewrite H4. reflexivity.
Qed.

(** What [initialize] does when some step is refused: it makes one
    connection attempt, declares nothing non-durable, swallows the error and
    leaves one more timer pending. *)
Lemma initialize_down st :
  broker_up R = false →
  ∃ tr error,
    MessageQueue.initialize R st
    = (AmqpConnect "amqp://localhost"
         :: tr ++ [ConsoleError "Failed to initialize message queue:" error;
                   SetTimeout CbInitialize 5000],
       state_of (MessageQueue.initialize R st), Returned tt)
    ∧ timers (state_of (MessageQueue.initialize R st))
      = timers st ++ [(CbInitialize, 5000%Z)]
    ∧ connect_attempts tr = 0
    ∧ (∀ q d, AssertQueue q d ∈ tr → d = true).
Proof.
  unfold broker_up.
  unfold MessageQueue.initialize, MessageQueue.amqp_connect,
    MessageQueue.createChannel, MessageQueue.assertQueue,
    MessageQueue.startMessageProcessing, MessageQueue.consume,
    MessageQueue.this_channel, MessageQueue.setTimeout.
  run_handler.
  destruct (connect_resolves R _); simpl;
    [|intros _; exists [], (AmqpError "connect"); repeat split;
      intros q d H; in_list H].
  destruct (createChannel_resolves R); simpl;
    [|intros _; exists [CreateChannel localhost], (AmqpError "createChannel");
      repeat split; intros q d H; in_list H].
  destruct (assertQueue_resolves R "chat_messages"); simpl;
    [|intros _;
      exists [CreateChannel localhost; AssertQueue "chat_messages" true],
        (AmqpError "assertQueue");
      repeat split; intros q d H; in_list H].
  destruct (assertQueue_resolves R "notifications"); simpl; [done|].
  intros _.
  exists [CreateChannel localhost; AssertQueue "chat_messages" true;
          AssertQueue "notifications" true], (AmqpError "assertQueue").
  repeat split; intros q d H; in_list H.
Qed.

(** The two enqueue operations, case by case. *)
Lemma queueMessage_cases st payload :
  MessageQueue.queueMessage R payload st
  = match channel st with
    | None => ([], st, Thrown (JsError "Message queue not initialized"))
    | Some _ =>
        match payload with
        | JUndefined =>
            ([], st, Thrown (TypeError "The first argument must be of type string"))
        | _ =>
            ([SendToQueue "chat_messages" (JSON_stringify R payload) true], st,
             if sendToQueue_returns R "chat_messages" (JSON_stringify R payload)
             then Returned tt else Thrown (AmqpError "sendToQueue"))
        end
    end.
Proof.
  unfold MessageQueue.queueMessage, MessageQueue.to_buffer,
    MessageQueue.sendToQueue. run_handler.
  destruct (channel st); [|done].
  destruct payload; simpl; try done; by destruct (sendToQueue_returns R _ _).
Qed.


(** With a channel and a payload other than [undefined], an enqueue is one
    call of [sendToQueue]. *)
Lemma queueMessage_defined st payload :
  is_Some (channel st) →
  payload ≠ JUndefined →
  MessageQueue.queueMessage R payload st
  = ([SendToQueue "chat_messages" (JSON_stringify R payload) true], st,
     if sendToQueue_returns R "chat_messages" (JSON_stringify R payload)
     then Returned tt else Thrown (AmqpError "sendToQueue")).
Proof.
  intros [ch Hch] Hdef. rewrite queueMessage_cases, Hch. by destruct payload.
Qed.



End Queue.



(** ** messagequeue.js: retry of a failed initialization *)

Section Retry.

Implicit Types (R : runtime) (st : state) (rounds : list runtime).

Lemma connect_attempts_app tr1 tr2 :
  connect_attempts (tr1 ++ tr2) = connect_attempts tr1 + connect_attempts tr2.
Proof. unfold connect_attempts. by rewrite List.filter_app, length_app. Qed.

Lemma last_of_two {A : Type} (x a b : A) (l : list A) :
  last (x :: l ++ [a; b]) = Some b.
Proof.
  change (x :: l ++ [a; b]) with ((x :: l) ++ [a] ++ [b]).
  by rewrite app_assoc, last_snoc.
Qed.

(** One failed attempt: one connection attempt, one more pending timer. *)
Lemma initialize_down_attempt R st :
  broker_up R = false →
  connect_attempts (trace_of (MessageQueue.initialize R st)) = 1
  ∧ timers (state_of (MessageQueue.initialize R st))
    = timers st ++ [(CbInitialize, 5000%Z)].
Proof.
  intros Hdown.
  destruct (initialize_down R st Hdown) as (tr & error & Heq & Htimers & Hzero & _).
  split; [|exact Htimers].
  rewrite Heq. unfold trace_of. simpl.
  change (AmqpConnect "amqp://localhost" :: tr ++ _)
    with ([AmqpConnect "amqp://localhost"] ++ tr ++
          [ConsoleError "Failed to initialize message queue:" error;
           SetTimeout CbInitialize 5000]).
  rewrite !connect_attempts_app, Hzero. reflexivity.
Qed.

(** While the broker stays down, every round of the timer loop makes one
    more attempt and leaves exactly one retry pending. *)
Lemma fire_timers_down rounds : ∀ st,
  Forall (λ R, broker_up R = false) rounds →
  timers st = [(CbInitialize, 5000%Z)] →
  connect_attempts (MessageQueue.fire_timers rounds st).1 = length rounds
  ∧ timers (MessageQueue.fire_timers rounds st).2 = [(CbInitialize, 5000%Z)].
Proof.
  induction rounds as [|R rounds IH]; intros st Hall Hpending; simpl.
  - done.
  - apply Forall_cons in Hall as [Hdown Hall]. rewrite Hpending. simpl.
    destruct (initialize_down_attempt R (set_timers [] st) Hdown) as [Hone Hnext].
    destruct (MessageQueue.initialize R (set_timers [] st)) as [[tr st'] r].
    unfold trace_of, state_of in Hone, Hnext. simpl in Hone, Hnext.
    destruct (IH st' Hall Hnext) as [Hcount Htimers].
    destruct (MessageQueue.fire_timers rounds st') as [tr' st''].
    simpl in *. rewrite connect_attempts_app, Hone, Hcount. done.
Qed.

(** C8. [initialize] begins by connecting to the broker and, when every step
    goes through, declares [chat_messages] and [notifications] and schedules
    nothing; whenever a step fails it returns normally with a call of itself
    scheduled 5000 ms later as its last action; and this repeats without
    bound: after start-up and any number of further rounds with the broker
    down, every round has made its attempt and a retry is pending again. *)
Theorem initialize_retries R st :
  (∃ rest, trace_of (MessageQueue.initialize R st)
           = AmqpConnect "amqp://localhost" :: rest)
  ∧ (broker_up R = true →
       AssertQueue "chat_messages" true ∈ trace_of (MessageQueue.initialize R st)
       ∧ AssertQueue "notifications" true ∈ trace_of (MessageQueue.initialize R st)
       ∧ timers (state_of (MessageQueue.initialize R st)) = timers st)
  ∧ (broker_up R = false →
       result_of (MessageQueue.initialize R st) = Returned tt
       ∧ last (trace_of (MessageQueue.initialize R st))
         = Some (SetTimeout CbInitialize 5000)
       ∧ timers (state_of (MessageQueue.initialize R st))
         = timers st ++ [(CbInitialize, 5000%Z)])
  ∧ (∀ rounds,
       timers st = [] →
       broker_up R = false →
       Forall (λ R', broker_up R' = false) rounds →
       connect_attempts (MessageQueue.startup R rounds st).1 = S (length rounds)
       ∧ timers (MessageQueue.startup R rounds st).2 = [(CbInitialize, 5000%Z)]).
Proof.
  split; [|split; [|split]].
  - destruct (broker_up R) eqn:Hup.
    + rewrite (initialize_up R st Hup). by eexists.
    + destruct (initialize_down R st Hup) as (tr & error & -> & _). by eexists.
  - intros Hup. rewrite (initialize_up R st Hup). unfold trace_of, state_of. simpl.
    split; [here|]. split; [here|done].
  - intros Hdown.
    destruct (initialize_down R st Hdown) as (tr & error & Heq & Htimers & _).
    split; [by rewrite Heq|]. split; [|exact Htimers].
    rewrite Heq. unfold trace_of. simpl.
    apply last_of_two.
  - intros rounds Hnone Hdown Hall. unfold MessageQueue.startup, MessageQueue.constructor.
    pose (st0 := set_channel None (set_connection None st)).
    destruct (initialize_down_attempt R st0 Hdown) as [Hone Hnext].
    run_handler. fold st0.
    destruct (MessageQueue.initialize R st0) as [[tr st'] r].
    unfold trace_of, state_of in Hone, Hnext. simpl in Hone, Hnext.
    rewrite Hnone in Hnext. simpl in Hnext.
    destruct (fire_timers_down rounds st' Hall Hnext) as [Hcount Htimers].
    destruct (MessageQueue.fire_timers rounds st') as [tr' st''].
    simpl in *. rewrite connect_attempts_app, Hone, Hcount. done.
Qed.

End Retry.

Lemma initialize_retries_witness :
  connect_attempts
    (MessageQueue.startup Sample.runtime_down
       [Sample.runtime_down; Sample.runtime_down; Sample.runtime_down]
       Sample.fresh).1 = 4
  ∧ timers
      (MessageQueue.startup Sample.runtime_down
         [Sample.runtime_down; Sample.runtime_down; Sample.runtime_down]
         Sample.fresh).2 = [(CbInitialize, 5000%Z)]
  ∧ timers (state_of (MessageQueue.initialize Sample.runtime_up Sample.fresh)) = [].
Proof.
  destruct (initialize_retries Sample.runtime_down Sample.fresh)
    as (_ & _ & _ & Hloop).
  destruct (initialize_retries Sample.runtime_up Sample.fresh)
    as (_ & Hup & _).
  destruct (Hloop [Sample.runtime_down; Sample.runtime_down; Sample.runtime_down]
              eq_refl eq_refl) as [Hcount Hpending].
  { repeat constructor. }
  split; [exact Hcount|]. split; [exact Hpending|].
  exact (proj2 (proj2 (Hup eq_refl))).
Defined.

(** ** messagequeue.js: the two consumers *)

Section Consumers.

Variable R : runtime.

Implicit Types (st : state) (msg : queue_msg) (message : jsval).

(** A step that returns hands its value and state to the rest. *)
Lemma bind_returned {A B : Type} (m : M A) (k : A → M B) st tr st' a :
  m st = (tr, st', Returned a) →
  bind m k st = (let '(tr', st'', r) := k a st' in (tr ++ tr', st'', r)).
Proof. intros H. unfold bind. by rewrite H. Qed.

(** For a value that is neither [null] nor [undefined], reading a property
    cannot fail. *)
Lemma get_prop_prop message k st :
  nullish message = false →
  get_prop message k st = ([], st, Returned (Server.prop message k)).
Proof. by destruct message. Qed.

Lemma get_prop_nullish message k st :
  nullish message = true → ∃ e, get_prop message k st = ([], st, Thrown e).
Proof. destruct message; try done; by eexists. Qed.

(** [processMessage], case by case. *)
Lemma processMessage_cases message st :
  is_Some (channel st) →
  MessageQueue.processMessage R message st
  = ([ConsoleLog ("Processing message: " +:+ JSON_stringify R message)]
       ++ (if nullish message then []
           else [SendToQueue "notifications"
                   (JSON_stringify R (notification_of message)) true]),
     st,
     if nullish message
     then Thrown (TypeError "Cannot read properties of null or undefined: id")
     else if sendToQueue_returns R "notifications"
               (JSON_stringify R (notification_of message))
          then Returned tt else Thrown (AmqpError "sendToQueue")).
Proof.
  intros [ch Hch]. unfold MessageQueue.processMessage. unfold bind at 1.
  unfold emit at 1. unfold bind.
  destruct (nullish message) eqn:Hnull.
  - by destruct message.
  - rewrite !get_prop_prop by done.
    unfold MessageQueue.queueNotification, MessageQueue.to_buffer,
      MessageQueue.sendToQueue.
    unfold bind, get, emit, ret. rewrite Hch. unfold notification_of.
    by destruct (sendToQueue_returns R _ _).
Qed.

(** The chat-messages callback, case by case. *)
Lemma on_chat_message_cases msg st :
  is_Some (channel st) →
  MessageQueue.on_chat_message R (Some msg) st
  = match JSON_parse R (msg_content msg) with
    | None =>
        ([ConsoleError "Error processing message:" SyntaxError; Nack msg],
         st, Returned tt)
    | Some message =>
        match MessageQueue.processMessage R message st with
        | (tr, _, Returned _) => (tr ++ [Ack msg], st, Returned tt)
        | (tr, _, Thrown e) =>
            (tr ++ [ConsoleError "Error processing message:" e; Nack msg],
             st, Returned tt)
        end
    end.
Proof.
  intros Hsome. pose proof Hsome as [ch Hch].
  unfold MessageQueue.on_chat_message, MessageQueue.parse_content,
    MessageQueue.ack, MessageQueue.nack, MessageQueue.this_channel.
  unfold try_catch. unfold bind at 1.
  destruct (JSON_parse R (msg_content msg)) as [message|].
  - unfold ret at 1. unfold bind at 1.
    rewrite (processMessage_cases message st Hsome).
    destruct (nullish message); [|destruct (sendToQueue_returns R _ _)];
      unfold bind, get, ret, emit, throw; rewrite Hch; simpl;
      by rewrite ?app_nil_r.
  - unfold throw at 1. unfold bind, get, ret, emit. by rewrite Hch.
Qed.

(** The notifications callback, case by case. *)
Lemma on_notification_cases msg st :
  is_Some (channel st) →
  MessageQueue.on_notification R (Some msg) st
  = match JSON_parse R (msg_content msg) with
    | None =>
        ([ConsoleError "Error processing notification:" SyntaxError; Nack msg],
         st, Returned tt)
    | Some notification =>
        ([ConsoleLog ("Processing notification: "
                      +:+ JSON_stringify R notification);
          Ack msg], st, Returned tt)
    end.
Proof.
  intros [ch Hch].
  unfold MessageQueue.on_notification, MessageQueue.parse_content,
    MessageQueue.processNotification, MessageQueue.ack, MessageQueue.nack,
    MessageQueue.this_channel.
  unfold try_catch, bind, get, ret, emit, throw.
  destruct (JSON_parse R (msg_content msg)); by rewrite Hch.
Qed.

Lemma acknowledgements_app tr1 tr2 :
  acknowledgements (tr1 ++ tr2) = acknowledgements tr1 ++ acknowledgements tr2.
Proof. apply List.filter_app. Qed.

(** C3. On an established channel, each consumer answers a delivered item
    with exactly one acknowledgement: [ack] when parsing and processing
    complete without error, [nack] otherwise; neither callback lets an error
    escape; and the notifications consumer sends nothing to any queue. *)
Theorem consumers_acknowledge msg st :
  is_Some (channel st) →
  acknowledgements (trace_of (MessageQueue.on_chat_message R (Some msg) st))
  = (if returned (result_of (chat_processing R msg st))
     then [Ack msg] else [Nack msg])
  ∧ acknowledgements (trace_of (MessageQueue.on_notification R (Some msg) st))
    = (if returned (result_of (notification_processing R msg st))
       then [Ack msg] else [Nack msg])
  ∧ result_of (MessageQueue.on_chat_message R (Some msg) st) = Returned tt
  ∧ result_of (MessageQueue.on_notification R (Some msg) st) = Returned tt
  ∧ (∀ q c p,
       SendToQueue q c p ∉ trace_of (MessageQueue.on_notification R (Some msg) st)).
Proof.
  intros Hsome.
  rewrite (on_chat_message_cases msg st Hsome), (on_notification_cases msg st Hsome).
  unfold chat_processing, notification_processing, MessageQueue.parse_content,
    MessageQueue.processNotification.
  unfold bind at 1. unfold bind at 1.
  destruct (JSON_parse R (msg_content msg)) as [message|]; unfold ret, throw, emit.
  - rewrite (processMessage_cases message st Hsome).
    unfold trace_of, result_of. simpl.
    split; [|split; [done|split; [|split; [done|]]]].
    + destruct (nullish message); [done|].
      by destruct (sendToQueue_returns R _ _).
    + destruct (nullish message); [done|].
      by destruct (sendToQueue_returns R _ _).
    + intros q c p H. in_list H.
  - unfold trace_of, result_of. simpl. repeat split; try done.
    intros q c p H. in_list H.
Qed.

(** C2, as the code has it. A delivered envelope that parses to a value
    other than [null], whose notification the broker accepts, is processed
    in this order and no other: the message is logged, the Notification
    Envelope built from its [id], [chatId] and [recipients] fields is sent to
    [notifications] with the persistent flag, and then the item is
    acknowledged.  The state, and with it every stored message and receipt,
    is as before. *)
Theorem chat_consumer_pipeline msg message st :
  is_Some (channel st) →
  JSON_parse R (msg_content msg) = Some message →
  nullish message = false →
  sendToQueue_returns R "notifications"
    (JSON_stringify R (notification_of message)) = true →
  MessageQueue.on_chat_message R (Some msg) st
  = ([ConsoleLog ("Processing message: " +:+ JSON_stringify R message);
      SendToQueue "notifications" (JSON_stringify R (notification_of message)) true;
      Ack msg],
     st, Returned tt).
Proof.
  intros Hsome Hparse Hnull Hsend.
  rewrite (on_chat_message_cases msg st Hsome), Hparse.
  rewrite (processMessage_cases message st Hsome), Hnull, Hsend. reflexivity.
Qed.

End Consumers.

Lemma consumers_acknowledge_witness :
  acknowledgements
    (trace_of (MessageQueue.on_chat_message Sample.runtime_up
                 (Some Sample.delivery) Sample.connected))
  = [Ack Sample.delivery]
  ∧ acknowledgements
      (trace_of (MessageQueue.on_notification Sample.runtime_up
                   (Some Sample.garbled) Sample.connected))
    = [Nack Sample.garbled].
Proof.
  destruct (consumers_acknowledge Sample.runtime_up Sample.delivery
              Sample.connected (ex_intro _ _ eq_refl)) as (Hack & _).
  destruct (consumers_acknowledge Sample.runtime_up Sample.garbled
              Sample.connected (ex_intro _ _ eq_refl)) as (_ & Hnack & _).
  split; [exact Hack | exact Hnack].
Defined.

Lemma chat_consumer_pipeline_witness :
  MessageQueue.on_chat_message Sample.runtime_up (Some Sample.delivery)
    Sample.connected
  = ([ConsoleLog ("Processing message: " +:+ Sample.stringify Sample.envelope);
      SendToQueue "notifications"
        (Sample.stringify (notification_of Sample.envelope)) true;
      Ack Sample.delivery],
     Sample.connected, Returned tt).
Proof.
  apply (chat_consumer_pipeline Sample.runtime_up Sample.delivery Sample.envelope
           Sample.connected (ex_intro _ _ eq_refl)); reflexivity.
Defined.

(** The chat-messages consumer acknowledges the envelope [m1] although
    nothing was stored under [m1] and no receipt exists for its recipient. *)
Lemma chat_consumer_persists_nothing :
  Ack Sample.delivery
    ∈ trace_of (MessageQueue.on_chat_message Sample.runtime_up
                  (Some Sample.delivery) Sample.connected)
  ∧ db_messages
      (state_of (MessageQueue.on_chat_message Sample.runtime_up
                   (Some Sample.delivery) Sample.connected)) !! "m1" = None
  ∧ delivered_at
      (state_of (MessageQueue.on_chat_message Sample.runtime_up
                   (Some Sample.delivery) Sample.connected))
      "m1" Sample.bob = None.
Proof.
  split; [|split; vm_compute; reflexivity].
  unfold trace_of, MessageQueue.on_chat_message. vm_compute. here.
Qed.

(** ** server.js: send_message *)

Section SendMessage.

Variable R : runtime.
Variable this : Server.socket.

Implicit Types (st : state) (data payload : jsval).

(** The [send_message] handler, case by case. *)
Lemma on_send_message_cases data st :
  Server.on_send_message R this data st
  = if nullish data
    then ([SocketEmit (Server.socket_id this) "error" send_failed], st, Returned tt)
    else
      let message := sent_message R this data st in
      match channel st with
      | None =>
          ([SocketEmit (Server.socket_id this) "error" send_failed],
           after_clock_read st, Returned tt)
      | Some _ =>
          if sendToQueue_returns R "chat_messages" (JSON_stringify R message)
          then
            ([SendToQueue "chat_messages" (JSON_stringify R message) true;
              IoToEmit ("chat:" +:+ ToString R (Server.prop data "chatId"))
                "new_message" message;
              ConsoleLog ("Storing delivery status for message: "
                          +:+ ToString R (Server.prop message "id"))],
             after_clock_read st, Returned tt)
          else
            ([SendToQueue "chat_messages" (JSON_stringify R message) true;
              SocketEmit (Server.socket_id this) "error" send_failed],
             after_clock_read st, Returned tt)
      end.
Proof.
  unfold Server.on_send_message, try_catch. unfold bind at 1.
  destruct (nullish data) eqn:Hnull.
  - by destruct data.
  - rewrite get_prop_prop by done. unfold bind at 1.
    rewrite get_prop_prop by done. unfold bind at 1.
    rewrite get_prop_prop by done.
    unfold Server.Date_now, MessageQueue.queueMessage, MessageQueue.to_buffer,
      MessageQueue.sendToQueue, Server.storeMessageDeliveryStatus, sent_message,
      after_clock_read.
    unfold bind, get, modify, ret, emit, throw, no_await. simpl.
    destruct (channel st); [|done].
    by destruct (sendToQueue_returns R _ _).
Qed.

(** Every payload the handler broadcasts as [new_message] is the message
    object it built and queued; that object has the five properties
    [sender], [content], [attachments], [timestamp], [chatId] and no [id]. *)
Lemma new_message_payload data st room payload :
  IoToEmit room "new_message" payload
    ∈ trace_of (Server.on_send_message R this data st) →
  payload = sent_message R this data st
  ∧ SendToQueue "chat_messages" (JSON_stringify R payload) true
      ∈ trace_of (Server.on_send_message R this data st)
  ∧ (JObj_keys payload = ["sender"; "content"; "attachments"; "timestamp"; "chatId"])
  ∧ has_prop "id" payload = false.
Proof.
  rewrite on_send_message_cases. unfold trace_of.
  destruct (nullish data); simpl; [intros H; in_list H|].
  destruct (channel st); simpl; [|intros H; in_list H].
  destruct (sendToQueue_returns R _ _); simpl; intros H; in_list H.
  injection H as _ ->. split; [done|]. split; [here|]. done.
Qed.


End SendMessage.

(** C1, at the event [send_message {chatId: "room1", content: "hi"}] from
    [user123]: the handler queues and broadcasts a message object whose
    properties are [sender], [content], [attachments], [timestamp] and
    [chatId]; it has no [id], and the delivery-status helper that reads
    [message.id] logs [undefined]. *)
Lemma send_message_envelope_lacks_id :
  Server.on_send_message Sample.runtime_up Sample.s1 Sample.hi Sample.running
  = ([SendToQueue "chat_messages" (Sample.stringify Sample.hi_message) true;
      IoToEmit "chat:room1" "new_message" Sample.hi_message;
      ConsoleLog "Storing delivery status for message: undefined"],
     after_clock_read Sample.running, Returned tt)
  ∧ has_prop "id" Sample.hi_message = false
  ∧ Server.prop (notification_of Sample.hi_message) "messageId" = JUndefined.
Proof.
  split; [|split; reflexivity].
  rewrite on_send_message_cases. reflexivity.
Qed.


(** ** server.js: mark_read *)

Section MarkRead.

Variable R : runtime.
Variable this : Server.socket.

Implicit Types (st : state) (data : jsval).


End MarkRead.



(** ** server.js: create_chat *)

Section CreateChat.

Variable R : runtime.
Variable this : Server.socket.

Implicit Types (st : state) (data chatRoom p : jsval) (ids : list jsval).









Lemma createNewChatRoom_run data st :
  Server.createNewChatRoom R (Server.prop data "name")
    (Server.prop data "participants") (Server.prop data "isGroup")
    (Server.userId this) st
  = ([ConsoleLog ("New chat room created: chat_"
                  +:+ Number_toString R (clock R (clock_reads st)))],
     after_clock_read (after_clock_read st),
     Returned (created_room R this data st)).
Proof. reflexivity. Qed.



End CreateChat.



(** * Further properties *)

(** ** models/Chat.js: contacts of a user *)

Section Contacts.

Implicit Types (u v : Chat.ObjectId) (c : User.contact)
  (cs pre post : list User.contact) (this : User.user).

Lemma same_user_Some c v u :
  User.contact_user c = Some v →
  User.same_user u c = Returned (bool_decide (v = u)).
Proof.
  intros H. unfold User.same_user. rewrite H. f_equal.
  destruct (String.eqb_spec (Chat.toString v) (Chat.toString u)) as [E|E].
  - apply toString_inj in E. by rewrite bool_decide_eq_true_2.
  - rewrite bool_decide_eq_false_2; [done|]. by intros ->.
Qed.

Lemma same_user_other u c : names_other u c → User.same_user u c = Returned false.
Proof.
  intros (v & Hv & Hne). rewrite (same_user_Some c v u Hv).
  by rewrite bool_decide_eq_false_2.
Qed.

Lemma same_user_match u c :
  User.contact_user c = Some u → User.same_user u c = Returned true.
Proof. intros H. rewrite (same_user_Some c u u H). by rewrite bool_decide_eq_true_2. Qed.

Lemma same_user_cases u c :
  (User.contact_user c = None ∧ ∃ e, User.same_user u c = Thrown e)
  ∨ (User.contact_user c = Some u ∧ User.same_user u c = Returned true)
  ∨ (names_other u c ∧ User.same_user u c = Returned false).
Proof.
  destruct (User.contact_user c) as [v|] eqn:Hv.
  - destruct (decide (v = u)) as [->|Hne].
    + right; left. split; [done|]. by apply same_user_match.
    + right; right. assert (names_other u c) by by exists v. split; [done|].
      by apply same_user_other.
  - left. split; [done|]. unfold User.same_user. rewrite Hv. by eexists.
Qed.

(** Where [find] and [findIndex] stop: at the first contact naming [u],
    every contact before it naming somebody else. *)
Lemma first_match pre c post u i :
  Forall (names_other u) pre →
  User.contact_user c = Some u →
  User.find u (pre ++ c :: post) = Returned (Some c)
  ∧ User.findIndex_from i u (pre ++ c :: post) = Returned (Some (i + length pre)).
Proof.
  intros Hpre Hc. revert i.
  induction Hpre as [|c0 pre H0 Hpre IH]; intros i; simpl.
  - rewrite (same_user_match u c Hc). split; [done|]. f_equal. f_equal. lia.
  - rewrite (same_user_other u c0 H0). destruct (IH (S i)) as [-> ->].
    split; [done|]. f_equal. f_equal. lia.
Qed.

Lemma no_match cs u i :
  Forall (names_other u) cs →
  User.find u cs = Returned None ∧ User.findIndex_from i u cs = Returned None.
Proof.
  intros Hcs. revert i. induction Hcs as [|c cs H0 Hcs IH]; intros i; simpl.
  - done.
  - rewrite (same_user_other u c H0). apply IH.
Qed.

Lemma first_missing pre c post u i :
  Forall (names_other u) pre →
  User.contact_user c = None →
  ∃ e, User.find u (pre ++ c :: post) = Thrown e
       ∧ User.findIndex_from i u (pre ++ c :: post) = Thrown e.
Proof.
  intros Hpre Hc. revert i.
  induction Hpre as [|c0 pre H0 Hpre IH]; intros i; simpl.
  - unfold User.same_user. rewrite Hc. by eexists.
  - rewrite (same_user_other u c0 H0). apply IH.
Qed.

(** Every list of contacts is in one of the three situations. *)
Lemma contacts_cases cs u :
  Forall (names_other u) cs
  ∨ (∃ pre c post, cs = pre ++ c :: post ∧ Forall (names_other u) pre
                   ∧ User.contact_user c = Some u)
  ∨ (∃ pre c post, cs = pre ++ c :: post ∧ Forall (names_other u) pre
                   ∧ User.contact_user c = None).
Proof.
  induction cs as [|c cs IH].
  - by left.
  - destruct (same_user_cases u c) as [[Hc _]|[[Hc _]|[Hc _]]].
    + right; right. by exists [], c, cs.
    + right; left. by exists [], c, cs.
    + destruct IH as [IH|[(pre & c' & post & -> & Hpre & Hc')
                         |(pre & c' & post & -> & Hpre & Hc')]].
      * left. by constructor.
      * right; left. exists (c :: pre), c', post. split; [done|].
        split; [by constructor|done].
      * right; right. exists (c :: pre), c', post. split; [done|].
        split; [by constructor|done].
Qed.

Lemma names_other_users cs u :
  Forall (names_other u) cs → Some u ∉ map User.contact_user cs.
Proof.
  induction 1 as [|c cs (v & Hv & Hne) _ IH]; simpl.
  - apply not_elem_of_nil.
  - rewrite not_elem_of_cons, Hv. split; [congruence|done].
Qed.

(** X1. When [addContact] returns, the user is among the contacts; the
    contacts that were there are untouched and at most one is appended; a
    contact list without repeated users stays so; and when the user was
    already a contact, nothing changes and nothing is saved. *)
Theorem addContact_adds_once now u nick this this' calls :
  User.addContact now u nick this = Returned (this', calls) →
  Some u ∈ User.contact_users this'
  ∧ (∃ extra, User.contacts this' = User.contacts this ++ extra ∧ length extra ≤ 1)
  ∧ (NoDup (User.contact_users this) → NoDup (User.contact_users this'))
  ∧ (Some u ∈ User.contact_users this → this' = this ∧ calls = []).
Proof.
  unfold User.addContact, User.contact_users.
  destruct (contacts_cases (User.contacts this) u)
    as [Hnone|[(pre & c & post & Hcs & Hpre & Hc)|(pre & c & post & Hcs & Hpre & Hc)]].
  - rewrite (proj1 (no_match _ u 0 Hnone)). intros [= <- <-]. simpl.
    rewrite map_app. simpl. split; [|split; [|split]].
    + apply elem_of_app. right. apply list_elem_of_here.
    + eexists. split; [done|]. simpl. lia.
    + intros Hnodup. apply NoDup_app. split; [done|]. split; [|apply NoDup_singleton].
      intros x Hx Hin. apply list_elem_of_singleton in Hin as ->.
      by apply (names_other_users _ u Hnone).
    + intros Hin. by apply (names_other_users _ u Hnone) in Hin.
  - rewrite Hcs, (proj1 (first_match pre c post u 0 Hpre Hc)). intros [= <- <-].
    rewrite <- Hcs. split; [|split; [|split]]; try done.
    + rewrite Hcs, map_app. apply elem_of_app. right. simpl. rewrite Hc.
      apply list_elem_of_here.
    + exists []. split; [by rewrite app_nil_r | simpl; lia].
  - destruct (first_missing pre c post u 0 Hpre Hc) as (e & Hfind & _).
    rewrite Hcs, Hfind. discriminate.
Qed.

(** X2. [addContact] is idempotent: once it has returned, calling it again
    for the same user, whatever the nickname and the time, returns the
    document as it is and saves nothing. *)
Theorem addContact_idempotent now u nick this this' calls now' nick' :
  User.addContact now u nick this = Returned (this', calls) →
  User.addContact now' u nick' this' = Returned (this', []).
Proof.
  unfold User.addContact.
  destruct (contacts_cases (User.contacts this) u)
    as [Hnone|[(pre & c & post & Hcs & Hpre & Hc)|(pre & c & post & Hcs & Hpre & Hc)]].
  - rewrite (proj1 (no_match _ u 0 Hnone)). intros [= <- <-]. simpl.
    by rewrite (proj1 (first_match (User.contacts this)
                         (User.mkContact (Some u) nick false false now) [] u 0
                         Hnone eq_refl)).
  - rewrite Hcs, (proj1 (first_match pre c post u 0 Hpre Hc)). intros [= <- <-].
    by rewrite Hcs, (proj1 (first_match pre c post u 0 Hpre Hc)).
  - destruct (first_missing pre c post u 0 Hpre Hc) as (e & Hfind & _).
    rewrite Hcs, Hfind. discriminate.
Qed.

Lemma alter_first_match b pre c post :
  alter (User.set_blocked b) (0 + length pre) (pre ++ c :: post)
  = pre ++ User.set_blocked b c :: post.
Proof.
  simpl. apply list_eq. intros j. destruct (decide (j = length pre)) as [->|Hne].
  - rewrite list_lookup_alter_eq, !list_lookup_middle by done. done.
  - rewrite list_lookup_alter_ne by done.
    destruct (decide (j < length pre)) as [Hlt|Hge].
    + by rewrite !lookup_app_l by done.
    + rewrite !lookup_app_r by lia.
      destruct (j - length pre) as [|k] eqn:E; [lia|done].
Qed.

(** X3. When [blockContact] ([b = true]) or [unblockContact] ([b = false])
    returns: no contact is added, removed or moved; every contact naming
    somebody else is exactly as before; if the user is a contact, a later
    [find] for the user answers a contact whose [blocked] is [b], and the
    document was saved once; if not, nothing changes and nothing is saved. *)
Theorem set_blocked_marks_contact b u this this' calls :
  User.set_contact_blocked b u this = Returned (this', calls) →
  User.contact_users this' = User.contact_users this
  ∧ (∀ i c, User.contacts this !! i = Some c → User.contact_user c ≠ Some u →
       User.contacts this' !! i = Some c)
  ∧ (Some u ∈ User.contact_users this →
       calls = [User.Save this']
       ∧ ∃ c', User.find u (User.contacts this') = Returned (Some c')
               ∧ User.blocked c' = b)
  ∧ (Some u ∉ User.contact_users this → this' = this ∧ calls = []).
Proof.
  unfold User.set_contact_blocked, User.findIndex, User.contact_users.
  destruct (contacts_cases (User.contacts this) u)
    as [Hnone|[(pre & c & post & Hcs & Hpre & Hc)|(pre & c & post & Hcs & Hpre & Hc)]].
  - rewrite (proj2 (no_match _ u 0 Hnone)). intros [= <- <-].
    split; [done|]. split; [done|]. split; [|done].
    intros Hin. by apply (names_other_users _ u Hnone) in Hin.
  - rewrite Hcs, (proj2 (first_match pre c post u 0 Hpre Hc)).
    rewrite alter_first_match. intros [= <- <-]. simpl.
    split; [by rewrite !map_app|]. split; [|split].
    + intros i c0 Hi Hother.
      destruct (decide (i = length pre)) as [->|Hne].
      * rewrite list_lookup_middle in Hi by done. congruence.
      * destruct (decide (i < length pre)) as [Hlt|Hge].
        -- by rewrite lookup_app_l in Hi |- * by done.
        -- rewrite lookup_app_r in Hi |- * by lia.
           destruct (i - length pre) as [|k] eqn:E; [lia|done].
    + intros _. split; [done|]. exists (User.set_blocked b c).
      by rewrite (proj1 (first_match pre (User.set_blocked b c) post u 0 Hpre Hc)).
    + intros Hnot. exfalso. apply Hnot. rewrite map_app. apply elem_of_app. right.
      simpl. rewrite Hc. apply list_elem_of_here.
  - destruct (first_missing pre c post u 0 Hpre Hc) as (e & _ & Hfind).
    rewrite Hcs, Hfind. discriminate.
Qed.

(** X4. Blocking a contact that was not blocked and then unblocking it
    gives back the document as it was. *)
Theorem block_then_unblock u c this this1 calls1 :
  User.find u (User.contacts this) = Returned (Some c) →
  User.blocked c = false →
  User.blockContact u this = Returned (this1, calls1) →
  ∃ calls2, User.unblockContact u this1 = Returned (this, calls2).
Proof.
  unfold User.blockContact, User.unblockContact, User.set_contact_blocked,
    User.findIndex.
  destruct (contacts_cases (User.contacts this) u)
    as [Hnone|[(pre & c0 & post & Hcs & Hpre & Hc)|(pre & c0 & post & Hcs & Hpre & Hc)]].
  - rewrite (proj1 (no_match _ u 0 Hnone)). discriminate.
  - rewrite Hcs. destruct (first_match pre c0 post u 0 Hpre Hc) as [-> ->].
    intros [= <-] Hblocked. rewrite alter_first_match. intros [= <- <-]. simpl.
    destruct (first_match pre (User.set_blocked true c0) post u 0 Hpre Hc) as [_ ->].
    rewrite alter_first_match.
    assert (Hback : User.set_blocked false (User.set_blocked true c0) = c0).
    { destruct c0. simpl in *. by subst. }
    rewrite Hback, <- Hcs. eexists. f_equal. f_equal. by destruct this.
  - destruct (first_missing pre c0 post u 0 Hpre Hc) as (e & Hfind & _).
    rewrite Hcs, Hfind. discriminate.
Qed.

(** X5. A contact that lacks its [user] and comes before any contact naming
    [u] makes all three methods throw; in particular no user can then be
    added. *)
Theorem missing_user_throws now nick u pre c post this :
  User.contacts this = pre ++ c :: post →
  Forall (names_other u) pre →
  User.contact_user c = None →
  (∃ e, User.addContact now u nick this = Thrown e)
  ∧ (∃ e, User.blockContact u this = Thrown e)
  ∧ (∃ e, User.unblockContact u this = Thrown e).
Proof.
  intros Hcs Hpre Hc.
  destruct (first_missing pre c post u 0 Hpre Hc) as (e & Hfind & Hindex).
  unfold User.addContact, User.blockContact, User.unblockContact,
    User.set_contact_blocked, User.findIndex.
  rewrite Hcs, Hfind, Hindex. repeat split; by exists e.
Qed.

End Contacts.

Lemma addContact_adds_once_witness :
  Some Sample.carol
    ∈ User.contact_users
        (User.set_contacts
           (User.contacts Example.dave
            ++ [User.mkContact (Some Sample.carol) None false false 9])
           Example.dave).
Proof.
  by apply (addContact_adds_once 9 Sample.carol None Example.dave _ _ eq_refl).
Defined.

Lemma addContact_idempotent_witness :
  User.addContact 10 Sample.bob (Some "rob") Example.dave
  = Returned (Example.dave, []).
Proof.
  exact (addContact_idempotent 9 Sample.bob None Example.dave Example.dave []
           10 (Some "rob") eq_refl).
Defined.

Lemma set_blocked_marks_contact_witness :
  User.contact_users
    (User.set_contacts
       (alter (User.set_blocked true) 1 (User.contacts Example.dave)) Example.dave)
  = User.contact_users Example.dave.
Proof.
  exact (proj1 (set_blocked_marks_contact true Sample.bob Example.dave _ _ eq_refl)).
Defined.

Lemma block_then_unblock_witness :
  ∃ calls,
    User.unblockContact Sample.bob
      (User.set_contacts
         (alter (User.set_blocked true) 1 (User.contacts Example.dave)) Example.dave)
    = Returned (Example.dave, calls).
Proof.
  exact (block_then_unblock Sample.bob _ Example.dave _ _ eq_refl eq_refl eq_refl).
Defined.

Lemma missing_user_throws_witness :
  ∃ e, User.addContact 9 Sample.carol None Example.erin = Thrown e.
Proof.
  exact (proj1 (missing_user_throws 9 None Sample.carol [] _ _ Example.erin
                  eq_refl (Forall_nil_2 _) eq_refl)).
Defined.

(** ** models/Chat.js: participants, chat validation, the pre-save hook *)

Section ChatExtras.

Implicit Types (this : Chat.chat) (u : Chat.ObjectId) (m : Chat.message)
  (chats : gmap string Chat.chat).

Lemma elem_of_if_singleton {A : Type} (b : bool) (x y : A) :
  y ∈ (if b then [x] else []) ↔ b = true ∧ y = x.
Proof.
  destruct b.
  - rewrite list_elem_of_singleton. by split; [|intros [_ ?]].
  - rewrite elem_of_nil. by split; [|intros [? _]].
Qed.

Lemma elem_of_if_nil_singleton {A : Type} (b : bool) (x y : A) :
  y ∈ (if b then [] else [x]) ↔ b = false ∧ y = x.
Proof.
  destruct b.
  - rewrite elem_of_nil. by split; [|intros [? _]].
  - rewrite list_elem_of_singleton. by split; [|intros [_ ?]].
Qed.

(** X6. Both participant methods keep a participants list free of repeats,
    and both are idempotent: a second call for the same user returns the
    document of the first call and makes no storage call. *)
Theorem participants_stay_distinct this u :
  (NoDup (Chat.participants this) →
     NoDup (Chat.participants (Chat.addParticipant u this).1)
     ∧ NoDup (Chat.participants (Chat.removeParticipant u this).1))
  ∧ Chat.addParticipant u (Chat.addParticipant u this).1
    = ((Chat.addParticipant u this).1, [])
  ∧ Chat.removeParticipant u (Chat.removeParticipant u this).1
    = ((Chat.removeParticipant u this).1, []).
Proof.
  split; [|split].
  - intros Hnodup. unfold Chat.addParticipant, Chat.removeParticipant.
    destruct (Chat.includes (Chat.participants this) u) eqn:E; simpl.
    + split; [done|]. by apply NoDup_filter.
    + split; [|done]. apply NoDup_app. split; [done|].
      split; [|apply NoDup_singleton].
      intros x Hx Hin. apply list_elem_of_singleton in Hin as ->.
      by apply includes_false in E.
  - unfold Chat.addParticipant.
    destruct (Chat.includes (Chat.participants this) u) eqn:E; simpl.
    + by rewrite E.
    + unfold Chat.push.
      assert (Hin : Chat.includes (Chat.participants this ++ [u]) u = true).
      { apply includes_elem_of, elem_of_app. right. apply list_elem_of_here. }
      by rewrite Hin.
  - unfold Chat.removeParticipant.
    destruct (Chat.includes (Chat.participants this) u) eqn:E; simpl.
    + assert (Hout : Chat.includes
                       (filter (λ id, Chat.toString id ≠ Chat.toString u)
                               (Chat.participants this)) u = false).
      { apply includes_false. rewrite filter_toString, list_elem_of_filter.
        intros [Hne _]. by apply Hne. }
      by rewrite Hout.
    + by rewrite E.
Qed.

(** X7. A chat's [name] is reported exactly when the chat is a group and no
    usable name is given, so a chat that is not a group is never turned down
    for its name; [createdBy] is reported exactly when missing. *)
Theorem chat_name_required this :
  (ChatDoc.PName ∈ ChatDoc.validate this
   ↔ Chat.isGroup this = true
     ∧ Chat.checkRequired_String (Chat.name this) = false)
  ∧ (Chat.isGroup this = false → ChatDoc.PName ∉ ChatDoc.validate this)
  ∧ (ChatDoc.PCreatedBy ∈ ChatDoc.validate this ↔ Chat.createdBy this = None).
Proof.
  assert (Hname : ChatDoc.PName ∈ ChatDoc.validate this
                  ↔ Chat.isGroup this = true
                    ∧ Chat.checkRequired_String (Chat.name this) = false).
  { unfold ChatDoc.validate, ChatDoc.name_required.
    rewrite elem_of_app, elem_of_if_singleton, elem_of_if_nil_singleton,
      andb_true_iff, negb_true_iff.
    split; [intros [[H _]|[_ H]]; [done|discriminate] | intros H; by left]. }
  split; [exact Hname|]. split.
  - intros Hgroup [Hg _]%Hname. congruence.
  - unfold ChatDoc.validate, ChatDoc.name_required.
    rewrite elem_of_app, elem_of_if_singleton, elem_of_if_nil_singleton.
    destruct (Chat.createdBy this); simpl.
    + split; [intros [[_ H]|[H _]]; discriminate | discriminate].
    + split; [done | intros _; by right].
Qed.

(** X8. Saving a new message whose chat is stored sets that chat's
    [lastActivity] to the time of the save and changes nothing else: the
    chat's other fields, every other chat, and the set of stored chats are
    as before.  A message that is not new, or a store that cannot be
    reached, leaves the chats alone.  In every case the hook calls [next]
    once, as its last action: a failed update is logged and never stops the
    save. *)
Theorem pre_save_touches_lastActivity now id m chats :
  Chat.chatId m = Some id →
  (∀ c, chats !! Chat.toString id = Some c →
        (ChatDoc.pre_save true now true m chats).1 !! Chat.toString id
        = Some (ChatDoc.set_lastActivity now c))
  ∧ (∀ k, k ≠ Chat.toString id →
          (ChatDoc.pre_save true now true m chats).1 !! k = chats !! k)
  ∧ dom (ChatDoc.pre_save true now true m chats).1 = dom chats
  ∧ (∀ store_up, (ChatDoc.pre_save store_up now false m chats).1 = chats)
  ∧ (∀ isNew, (ChatDoc.pre_save false now isNew m chats).1 = chats)
  ∧ (∀ store_up isNew,
       last (ChatDoc.pre_save store_up now isNew m chats).2 = Some ChatDoc.HookNext
       ∧ length (List.filter ChatDoc.is_next
                   (ChatDoc.pre_save store_up now isNew m chats).2) = 1).
Proof.
  intros Hid. unfold ChatDoc.pre_save, ChatDoc.findByIdAndUpdate_lastActivity.
  rewrite Hid. simpl. split; [|split; [|split; [|split; [|split]]]].
  - intros c Hc. by rewrite lookup_alter_eq, Hc.
  - intros k Hk. by rewrite lookup_alter_ne.
  - apply dom_alter_L.
  - done.
  - by intros [].
  - by intros [] [].
Qed.

End ChatExtras.

Lemma participants_stay_distinct_witness :
  NoDup (Chat.participants (Chat.addParticipant Sample.carol Example.group_chat).1).
Proof.
  apply (participants_stay_distinct Example.group_chat Sample.carol).
  repeat constructor; rewrite ?elem_of_cons, ?elem_of_nil; intros H;
    repeat destruct H as [H|H]; done.
Defined.

Lemma chat_name_required_witness :
  ChatDoc.PName ∉ ChatDoc.validate Example.direct_chat.
Proof.
  exact (proj1 (proj2 (chat_name_required Example.direct_chat)) eq_refl).
Defined.

Lemma pre_save_touches_lastActivity_witness :
  (ChatDoc.pre_save true 9 true Sample.stored_m1 Example.chats).1 !! "room1"
  = Some (ChatDoc.set_lastActivity 9 Example.group_chat).
Proof.
  apply (proj1 (pre_save_touches_lastActivity 9 Example.room1 Sample.stored_m1
                  Example.chats eq_refl)).
  reflexivity.
Defined.

(** ** messagequeue.js: recovery, half-open initialization, close *)

Section QueueExtras.

Implicit Types (R : runtime) (st : state) (rounds : list runtime).

Lemma consumers_registered_app tr1 tr2 :
  consumers_registered (tr1 ++ tr2)
  = consumers_registered tr1 + consumers_registered tr2.
Proof. unfold consumers_registered. by rewrite List.filter_app, length_app. Qed.

(** A failed [initialize], step by step: which fields it leaves set and
    that it registers no consumer. *)
Lemma initialize_down_state R st :
  broker_up R = false →
  consumers_registered (trace_of (MessageQueue.initialize R st)) = 0
  ∧ (∀ q cb, Consume q cb ∉ trace_of (MessageQueue.initialize R st))
  ∧ channel (state_of (MessageQueue.initialize R st))
    = (if connect_resolves R "amqp://localhost" && createChannel_resolves R
       then Some (AmqpChannel localhost) else channel st)
  ∧ connection (state_of (MessageQueue.initialize R st))
    = (if connect_resolves R "amqp://localhost"
       then Some localhost else connection st).
Proof.
  unfold broker_up.
  unfold MessageQueue.initialize, MessageQueue.amqp_connect,
    MessageQueue.createChannel, MessageQueue.assertQueue,
    MessageQueue.startMessageProcessing, MessageQueue.consume,
    MessageQueue.this_channel, MessageQueue.setTimeout.
  run_handler.
  destruct (connect_resolves R _); simpl;
    [|intros _; repeat split; intros q cb H; in_list H].
  destruct (createChannel_resolves R); simpl;
    [|intros _; repeat split; intros q cb H; in_list H].
  destruct (assertQueue_resolves R "chat_messages"); simpl;
    [|intros _; repeat split; intros q cb H; in_list H].
  destruct (assertQueue_resolves R "notifications"); simpl; [done|].
  intros _; repeat split; intros q cb H; in_list H.
Qed.

Lemma registrations_app tr1 tr2 :
  registrations (tr1 ++ tr2) = registrations tr1 ++ registrations tr2.
Proof. apply List.filter_app. Qed.

Lemma registrations_none tr : consumers_registered tr = 0 → registrations tr = [].
Proof. unfold consumers_registered, registrations. apply nil_length_inv. Qed.

Lemma fire_timers_down_quiet rounds : ∀ st,
  Forall (λ R, broker_up R = false) rounds →
  timers st = [(CbInitialize, 5000%Z)] →
  consumers_registered (MessageQueue.fire_timers rounds st).1 = 0.
Proof.
  induction rounds as [|R rounds IH]; intros st Hall Hpending; simpl.
  - done.
  - apply Forall_cons in Hall as [Hdown Hall]. rewrite Hpending. simpl.
    destruct (initialize_down_attempt R (set_timers [] st) Hdown) as [_ Hnext].
    destruct (initialize_down_state R (set_timers [] st) Hdown) as [Hquiet _].
    destruct (MessageQueue.initialize R (set_timers [] st)) as [[tr st'] r].
    unfold trace_of, state_of in Hquiet, Hnext. simpl in Hquiet, Hnext.
    specialize (IH st' Hall Hnext).
    destruct (MessageQueue.fire_timers rounds st') as [tr' st''].
    simpl in *. by rewrite consumers_registered_app, Hquiet, IH.
Qed.

(** The timer loop over two stretches of rounds is the loop over the first
    followed by the loop over the second. *)
Lemma fire_timers_app rounds1 rounds2 : ∀ st,
  MessageQueue.fire_timers (rounds1 ++ rounds2) st
  = ((MessageQueue.fire_timers rounds1 st).1
       ++ (MessageQueue.fire_timers rounds2 (MessageQueue.fire_timers rounds1 st).2).1,
     (MessageQueue.fire_timers rounds2 (MessageQueue.fire_timers rounds1 st).2).2).
Proof.
  induction rounds1 as [|R rounds1 IH]; intros st; simpl.
  - by destruct (MessageQueue.fire_timers rounds2 st).
  - destruct (timers st) as [|[cb delay] pending] eqn:Hpending; simpl.
    + destruct rounds2 as [|R2 rounds2]; simpl; [done|]. by rewrite Hpending.
    + destruct (MessageQueue.run_callback R cb (set_timers pending st))
        as [[tr st'] r].
      rewrite IH.
      destruct (MessageQueue.fire_timers rounds1 st') as [tr1 st1]. simpl.
      destruct (MessageQueue.fire_timers rounds2 st1) as [tr2 st2]. simpl.
      by rewrite app_assoc.
Qed.

(** With no timer pending the loop does nothing. *)
Lemma fire_timers_idle rounds st :
  timers st = [] → MessageQueue.fire_timers rounds st = ([], st).
Proof. intros H. destruct rounds; simpl; [done|]. by rewrite H. Qed.

(** X9. Recovery.  If the broker is down at start-up and for any number of
    rounds after, and then up, the round in which it is up is the last
    attempt: the consumer registrations of the whole run are the one on
    [chat_messages] followed by the one on [notifications] and no other, the
    channel is set, no retry is left pending, and whatever the rounds after
    that, nothing more happens. *)
Theorem startup_recovers R0 downs Rup later st :
  timers st = [] →
  broker_up R0 = false →
  Forall (λ R, broker_up R = false) downs →
  broker_up Rup = true →
  connect_attempts (MessageQueue.startup R0 (downs ++ Rup :: later) st).1
  = length downs + 2
  ∧ registrations (MessageQueue.startup R0 (downs ++ Rup :: later) st).1
    = [Consume "chat_messages" OnChatMessage;
       Consume "notifications" OnNotification]
  ∧ timers (MessageQueue.startup R0 (downs ++ Rup :: later) st).2 = []
  ∧ channel (MessageQueue.startup R0 (downs ++ Rup :: later) st).2
    = Some (AmqpChannel localhost).
Proof.
  intros Hnone Hdown0 Hdowns Hup.
  unfold MessageQueue.startup, MessageQueue.constructor.
  pose (st0 := set_channel None (set_connection None st)).
  destruct (initialize_down_attempt R0 st0 Hdown0) as [Hone Hnext].
  destruct (initialize_down_state R0 st0 Hdown0) as [Hquiet _].
  run_handler. fold st0.
  destruct (MessageQueue.initialize R0 st0) as [[tr0 st1] r0].
  unfold trace_of, state_of in Hone, Hnext, Hquiet. simpl in Hone, Hnext, Hquiet.
  rewrite Hnone in Hnext. simpl in Hnext.
  rewrite fire_timers_app.
  destruct (fire_timers_down downs st1 Hdowns Hnext) as [Hcount Hpending].
  pose proof (fire_timers_down_quiet downs st1 Hdowns Hnext) as Hquiet'.
  destruct (MessageQueue.fire_timers downs st1) as [tr1 st2].
  simpl in Hcount, Hpending, Hquiet' |- *.
  rewrite Hpending. simpl.
  rewrite (initialize_up Rup (set_timers [] st2) Hup).
  rewrite fire_timers_idle by done. simpl.
  rewrite !connect_attempts_app, !registrations_app, Hone, Hcount,
    (registrations_none _ Hquiet), (registrations_none _ Hquiet').
  split; [unfold connect_attempts; simpl; lia|]. by repeat split.
Qed.

(** X10. Half-open initialization.  When the connection and the channel
    open but a queue cannot be declared, [initialize] fails with the channel
    field already set: no consumer is registered and a retry is pending, yet
    an enqueue of an envelope made in that state does not fail fast but
    calls [sendToQueue]. *)
Theorem initialize_half_open R st payload :
  connect_resolves R "amqp://localhost" = true →
  createChannel_resolves R = true →
  broker_up R = false →
  payload ≠ JUndefined →
  channel (state_of (MessageQueue.initialize R st)) = Some (AmqpChannel localhost)
  ∧ consumers_registered (trace_of (MessageQueue.initialize R st)) = 0
  ∧ timers (state_of (MessageQueue.initialize R st))
    = timers st ++ [(CbInitialize, 5000%Z)]
  ∧ trace_of (MessageQueue.queueMessage R payload
                (state_of (MessageQueue.initialize R st)))
    = [SendToQueue "chat_messages" (JSON_stringify R payload) true].
Proof.
  intros Hconn Hchan Hdown Hdef.
  destruct (initialize_down_state R st Hdown) as (Hquiet & _ & Hch & _).
  destruct (initialize_down_attempt R st Hdown) as [_ Htimers].
  rewrite Hconn, Hchan in Hch. simpl in Hch.
  split; [done|]. split; [done|]. split; [done|].
  rewrite queueMessage_defined; [done | by rewrite Hch | done].
Qed.

(** X11. A consumer is registered only by an initialization that leaves a
    channel set, and an initialization never clears a channel that was set;
    so through any number of timer rounds a channel, once there, stays. *)
Theorem channel_once_set_stays R st :
  (∀ q cb, Consume q cb ∈ trace_of (MessageQueue.initialize R st) →
           is_Some (channel (state_of (MessageQueue.initialize R st))))
  ∧ (is_Some (channel st) →
       is_Some (channel (state_of (MessageQueue.initialize R st))))
  ∧ (∀ rounds, is_Some (channel st) →
       is_Some (channel (MessageQueue.fire_timers rounds st).2)).
Proof.
  assert (Hkeep : ∀ R' st', is_Some (channel st') →
            is_Some (channel (state_of (MessageQueue.initialize R' st')))).
  { intros R' st' Hsome. destruct (broker_up R') eqn:Hup.
    - rewrite (initialize_up R' st' Hup). by eexists.
    - destruct (initialize_down_state R' st' Hup) as (_ & _ & -> & _).
      by destruct (_ && _). }
  split; [|split].
  - intros q cb Hin. destruct (broker_up R) eqn:Hup.
    + rewrite (initialize_up R st Hup). by eexists.
    + destruct (initialize_down_state R st Hup) as (_ & Hnone & _).
      by apply Hnone in Hin.
  - apply Hkeep.
  - intros rounds. revert st. induction rounds as [|R' rounds IH]; intros st Hsome.
    + done.
    + simpl. destruct (timers st) as [|[[] delay] pending]; [done|]. simpl.
      specialize (Hkeep R' (set_timers pending st) Hsome).
      destruct (MessageQueue.initialize R' (set_timers pending st)) as [[tr st'] r].
      specialize (IH st' Hkeep).
      by destruct (MessageQueue.fire_timers rounds st').
Qed.

(** [close] reads the two fields and writes neither. *)
Lemma close_keeps_state channel_ok connection_ok st :
  (QueueClose.close channel_ok connection_ok st).1.2 = st.
Proof.
  unfold QueueClose.close.
  by destruct (channel st), (connection st), channel_ok.
Qed.

(** X12. [close] closes the channel before the connection; when closing
    the channel fails, the connection is not closed and the error reaches
    the caller; with neither field set it does nothing.  It does not clear
    the channel field: after a [close] that closed the channel [ch], the
    field still holds [ch], so a later enqueue of an envelope passes the
    guard and calls [sendToQueue]. *)
Theorem close_order channel_ok connection_ok R st payload :
  (∀ ch conn, channel st = Some ch → connection st = Some conn →
     (QueueClose.close true connection_ok st).1.1
     = [QueueClose.ChannelClose ch; QueueClose.ConnectionClose conn])
  ∧ (∀ ch, channel st = Some ch →
       (QueueClose.close false connection_ok st).1.1 = [QueueClose.ChannelClose ch]
       ∧ (QueueClose.close false connection_ok st).2
         = Thrown (AmqpError "channel.close"))
  ∧ (channel st = None → connection st = None →
       QueueClose.close channel_ok connection_ok st = ([], st, Returned tt))
  ∧ (∀ ch, payload ≠ JUndefined →
       QueueClose.ChannelClose ch
         ∈ (QueueClose.close channel_ok connection_ok st).1.1 →
       channel (QueueClose.close channel_ok connection_ok st).1.2 = Some ch
       ∧ trace_of (MessageQueue.queueMessage R payload
                     (QueueClose.close channel_ok connection_ok st).1.2)
         = [SendToQueue "chat_messages" (JSON_stringify R payload) true]).
Proof.
  split; [|split; [|split]].
  - intros ch conn Hch Hconn. unfold QueueClose.close. by rewrite Hch, Hconn.
  - intros ch Hch. unfold QueueClose.close. by rewrite Hch.
  - intros Hch Hconn. unfold QueueClose.close. by rewrite Hch, Hconn.
  - intros ch Hdef Hin. rewrite close_keeps_state.
    assert (Hch : channel st = Some ch).
    { unfold QueueClose.close in Hin.
      destruct (channel st) as [ch'|], (connection st), channel_ok;
        simpl in Hin; in_list Hin. }
    split; [done|].
    rewrite queueMessage_defined; [done | by rewrite Hch | done].
Qed.

End QueueExtras.

Lemma startup_recovers_witness :
  connect_attempts
    (MessageQueue.startup Sample.runtime_down
       ([Sample.runtime_down; Example.runtime_half]
          ++ Sample.runtime_up :: [Sample.runtime_down])
       Sample.fresh).1 = 4
  ∧ timers
      (MessageQueue.startup Sample.runtime_down
         ([Sample.runtime_down; Example.runtime_half]
            ++ Sample.runtime_up :: [Sample.runtime_down])
         Sample.fresh).2 = [].
Proof.
  destruct (startup_recovers Sample.runtime_down
              [Sample.runtime_down; Example.runtime_half] Sample.runtime_up
              [Sample.runtime_down] Sample.fresh eq_refl eq_refl)
    as (Hcount & _ & Hnone & _); [by repeat constructor | reflexivity |].
  split; [exact Hcount | exact Hnone].
Defined.

Lemma initialize_half_open_witness :
  trace_of (MessageQueue.queueMessage Example.runtime_half Sample.envelope
              (state_of (MessageQueue.initialize Example.runtime_half Sample.fresh)))
  = [SendToQueue "chat_messages" (Sample.stringify Sample.envelope) true].
Proof.
  exact (proj2 (proj2 (proj2 (initialize_half_open Example.runtime_half
                                Sample.fresh Sample.envelope
                                eq_refl eq_refl eq_refl ltac:(discriminate))))).
Defined.

Lemma channel_once_set_stays_witness :
  is_Some (channel
             (MessageQueue.fire_timers [Sample.runtime_down; Sample.runtime_down]
                (state_of (MessageQueue.initialize Example.runtime_half
                             Sample.fresh))).2).
Proof.
  apply (channel_once_set_stays Sample.runtime_down). by eexists.
Defined.

Lemma close_order_witness :
  (QueueClose.close true true Sample.connected).1.1
  = [QueueClose.ChannelClose (AmqpChannel localhost);
     QueueClose.ConnectionClose localhost].
Proof.
  exact (proj1 (close_order true true Sample.runtime_up Sample.connected
                  Sample.envelope) _ _ eq_refl eq_refl).
Defined.

(** ** From send_message to the derived notification *)

Section EndToEnd.

Variable R : runtime.
Variable this : Server.socket.

Implicit Types (st : state) (data parsed payload : jsval) (msg : queue_msg).

Lemma lookup_prop_absent k props : k ∉ props.*1 → lookup_prop k props = JUndefined.
Proof.
  induction props as [|[k' v] props IH]; simpl; [done|].
  rewrite not_elem_of_cons. intros [Hne Hrest].
  destruct (String.eqb_spec k k'); [done|]. by apply IH.
Qed.

Lemma has_prop_false_prop parsed k :
  has_prop k parsed = false → Server.prop parsed k = JUndefined.
Proof.
  destruct parsed; try done. simpl. intros H.
  apply lookup_prop_absent. by apply bool_decide_eq_false in H.
Qed.

(** X13. Whatever content [send_message] queued, when the chat-messages
    consumer parses it back with a parser that invents no property, the
    only thing it sends to a queue is a notification whose [messageId] and
    [recipients] are [undefined]: the notification names neither the
    message nor anybody to notify. *)
Theorem envelope_notification_names_nothing data st msg parsed st2 :
  msg_content msg = JSON_stringify R (sent_message R this data st) →
  JSON_parse R (msg_content msg) = Some parsed →
  (∀ k, has_prop k parsed = true →
        has_prop k (sent_message R this data st) = true) →
  is_Some (channel st2) →
  ∀ q c p,
    SendToQueue q c p ∈ trace_of (MessageQueue.on_chat_message R (Some msg) st2) →
    q = "notifications"
    ∧ c = JSON_stringify R
            (JObj [("type", JStr "message_delivered");
                   ("messageId", JUndefined);
                   ("chatId", Server.prop parsed "chatId");
                   ("recipients", JUndefined)]).
Proof.
  intros _ Hparse Hkeys Hsome q c p.
  assert (Hid : Server.prop parsed "id" = JUndefined).
  { apply has_prop_false_prop. destruct (has_prop "id" parsed) eqn:E; [|done].
    apply Hkeys in E. discriminate. }
  assert (Hrec : Server.prop parsed "recipients" = JUndefined).
  { apply has_prop_false_prop. destruct (has_prop "recipients" parsed) eqn:E; [|done].
    apply Hkeys in E. discriminate. }
  rewrite (on_chat_message_cases R msg st2 Hsome), Hparse.
  rewrite (processMessage_cases R parsed st2 Hsome).
  unfold notification_of. rewrite Hid, Hrec. unfold trace_of.
  destruct (nullish parsed); simpl.
  - intros H. in_list H.
  - destruct (sendToQueue_returns R _ _); simpl; intros H; in_list H;
      by injection H as -> -> _.
Qed.

(** X14. Every [new_message] the handler broadcasts goes to the room named
    by the payload's own [chatId], carries as [sender] the user of the
    socket, whatever the client sent, and carries an [attachments] value
    that is never missing: the client's when it is truthy, the empty array
    otherwise. *)
Theorem broadcast_sender_and_attachments data st room payload :
  IoToEmit room "new_message" payload
    ∈ trace_of (Server.on_send_message R this data st) →
  room = "chat:" +:+ ToString R (Server.prop payload "chatId")
  ∧ Server.prop payload "sender" = Server.userId this
  ∧ truthy (Server.prop payload "attachments") = true
  ∧ Server.prop payload "attachments"
    = (if truthy (Server.prop data "attachments")
       then Server.prop data "attachments" else JArr []).
Proof.
  intros Hin.
  destruct (new_message_payload R this data st room payload Hin) as (-> & _).
  split; [|split; [done|split]].
  - revert Hin. rewrite on_send_message_cases. unfold trace_of.
    destruct (nullish data); simpl; [intros H; in_list H|].
    destruct (channel st); simpl; [|intros H; in_list H].
    destruct (sendToQueue_returns R _ _); simpl; intros H; in_list H.
  - simpl. unfold js_or. by destruct (truthy (Server.prop data "attachments")) eqn:E.
  - done.
Qed.

End EndToEnd.

Lemma envelope_notification_names_nothing_witness :
  Sample.stringify (notification_of Example.hi_parsed)
  = Sample.stringify
      (JObj [("type", JStr "message_delivered");
             ("messageId", JUndefined);
             ("chatId", JStr "room1");
             ("recipients", JUndefined)]).
Proof.
  refine (proj2 (envelope_notification_names_nothing Example.runtime_loop Sample.s1
                   Sample.hi Sample.running
                   (mkQueueMsg (Sample.stringify Sample.hi_message) 7)
                   Example.hi_parsed Sample.connected eq_refl eq_refl _ _
                   "notifications" _ true _)).
  - intros k H. exact H.
  - by eexists.
  - unfold trace_of. vm_compute. here.
Defined.

Lemma broadcast_sender_and_attachments_witness :
  Server.prop Sample.hi_message "sender" = JStr "user123"
  ∧ Server.prop Sample.hi_message "attachments" = JArr [].
Proof.
  destruct (broadcast_sender_and_attachments Sample.runtime_up Sample.s1 Sample.hi
              Sample.running "chat:room1" Sample.hi_message)
    as (_ & Hsender & _ & Hatt).
  { unfold trace_of. rewrite on_send_message_cases. simpl. here. }
  split; [exact Hsender | exact Hatt].
Defined.

(** ** server.js: errors, connection, room membership, authentication *)

Section ServerExtras.

Variable R : runtime.
Variable this : Server.socket.

Implicit Types (st : state) (data chatRoom p : jsval) (ids : list jsval)
  (sid room : string).

(** The [create_chat] handler on a payload that cannot be served. *)
Lemma on_create_chat_failed_run data st :
  nullish data = true ∨ (∀ ids, Server.prop data "participants" ≠ JArr ids) →
  Server.on_create_chat R this data st
  = ((if nullish data then []
      else [ConsoleLog ("New chat room created: chat_"
                        +:+ Number_toString R (clock R (clock_reads st)))])
     ++ [SocketEmit (Server.socket_id this) "error" create_failed],
     (if nullish data then st else after_clock_read (after_clock_read st)),
     Returned tt).
Proof.
  intros Hbad. destruct (nullish data) eqn:Hnull.
  - by destruct data.
  - destruct Hbad as [?|Hbad]; [done|].
    unfold Server.on_create_chat, try_catch.
    rewrite (bind_returned _ _ _ _ _ _ (get_prop_prop data "name" st Hnull)).
    rewrite (bind_returned _ _ _ _ _ _ (get_prop_prop data "participants" st Hnull)).
    rewrite (bind_returned _ _ _ _ _ _ (get_prop_prop data "isGroup" st Hnull)).
    rewrite (bind_returned _ _ _ _ _ _ (createNewChatRoom_run R this data st)).
    destruct (Server.prop data "participants") eqn:E; try done.
    by destruct (Hbad elems).
Qed.

(** X15. A [create_chat] whose payload is [null] or [undefined], or whose
    [participants] is not an array, ends with one [error] event to the
    creator: nobody receives [chat_created], no socket joins a room, and
    the room table is as before. *)
Theorem create_chat_failure data st :
  nullish data = true ∨ (∀ ids, Server.prop data "participants" ≠ JArr ids) →
  last (trace_of (Server.on_create_chat R this data st))
  = Some (SocketEmit (Server.socket_id this) "error" create_failed)
  ∧ (∀ sid payload,
       SocketEmit sid "chat_created" payload
         ∉ trace_of (Server.on_create_chat R this data st))
  ∧ (∀ sid room,
       SocketJoin sid room ∉ trace_of (Server.on_create_chat R this data st))
  ∧ rooms (state_of (Server.on_create_chat R this data st)) = rooms st.
Proof.
  intros Hbad. rewrite (on_create_chat_failed_run data st Hbad).
  unfold trace_of, state_of.
  destruct (nullish data); simpl; repeat split; try done;
    intros ? ? H; in_list H.
Qed.


(** *** Rooms *)

Lemma add_to_room_members sid room rs :
  default [] (Server.add_to_room sid room rs !! room)
  = (if bool_decide (sid ∈ default [] (rs !! room))
     then default [] (rs !! room) else default [] (rs !! room) ++ [sid]).
Proof.
  unfold Server.add_to_room. destruct (bool_decide _); [done|].
  by rewrite lookup_insert_eq.
Qed.

Lemma add_to_room_other sid room room' rs :
  room ≠ room' → Server.add_to_room sid room rs !! room' = rs !! room'.
Proof.
  intros Hne. unfold Server.add_to_room. destruct (bool_decide _); [done|].
  by apply lookup_insert_ne.
Qed.

Lemma add_to_room_elem sid sid' room rs :
  sid' ∈ default [] (Server.add_to_room sid room rs !! room)
  ↔ sid' ∈ default [] (rs !! room) ∨ sid' = sid.
Proof.
  rewrite add_to_room_members. destruct (bool_decide _) eqn:E.
  - apply bool_decide_eq_true in E. split; [by left | by intros [?| ->]].
  - rewrite elem_of_app, list_elem_of_singleton. done.
Qed.

(** Joining keeps the head of a room that has one. *)
Lemma add_to_room_head sid room rs s rest :
  rs !! room = Some (s :: rest) →
  ∃ rest', Server.add_to_room sid room rs !! room = Some (s :: rest').
Proof.
  intros H. unfold Server.add_to_room. rewrite H. simpl.
  destruct (bool_decide _); [by eexists|]. rewrite lookup_insert_eq. by eexists.
Qed.

Lemma on_connection_state st :
  Server.on_connection R this st
  = ([ConsoleLog ("User connected: " +:+ ToString R (Server.userId this));
      SocketJoin (Server.socket_id this)
        ("user:" +:+ ToString R (Server.userId this));
      SocketJoin (Server.socket_id this) "chat:room1";
      SocketJoin (Server.socket_id this) "chat:room2"],
     set_rooms
       (Server.add_to_room (Server.socket_id this) "chat:room2"
          (Server.add_to_room (Server.socket_id this) "chat:room1"
             (Server.add_to_room (Server.socket_id this)
                ("user:" +:+ ToString R (Server.userId this)) (rooms st))))
       st,
     Returned tt).
Proof. reflexivity. Qed.

(** X17. After the connection handler has run, the socket is a member of
    its user's personal room and of [chat:room1] and [chat:room2].  A user
    whom [findUserSocket] already found keeps being found on the same
    socket; a user with an empty personal room is from now on found on this
    socket, provided the socket is in the socket table.  No other user's
    personal room changes. *)
Theorem connection_joins st :
  Server.socket_id this
    ∈ room_members (state_of (Server.on_connection R this st))
        ("user:" +:+ ToString R (Server.userId this))
  ∧ Server.socket_id this
      ∈ room_members (state_of (Server.on_connection R this st)) "chat:room1"
  ∧ Server.socket_id this
      ∈ room_members (state_of (Server.on_connection R this st)) "chat:room2"
  ∧ (∀ s, user_socket R st (Server.userId this) = Some s →
          user_socket R (state_of (Server.on_connection R this st))
            (Server.userId this) = Some s)
  ∧ (room_members st ("user:" +:+ ToString R (Server.userId this)) = [] →
     Server.socket_id this ∈ sockets st →
     user_socket R (state_of (Server.on_connection R this st))
       (Server.userId this) = Some (Server.socket_id this))
  ∧ (∀ u, u ≠ ToString R (Server.userId this) →
          rooms (state_of (Server.on_connection R this st)) !! ("user:" +:+ u)
          = rooms st !! ("user:" +:+ u)).
Proof.
  rewrite on_connection_state. unfold state_of, room_members, user_socket. simpl.
  set (sid := Server.socket_id this).
  set (me := ToString R (Server.userId this)).
  assert (Hpersonal : ∀ rs,
            Server.add_to_room sid "chat:room2"
              (Server.add_to_room sid "chat:room1" rs) !! ("user:" +:+ me)
            = rs !! ("user:" +:+ me)).
  { intros rs. by rewrite !add_to_room_other by (simpl; discriminate). }
  split; [|split; [|split; [|split; [|split]]]].
  - rewrite Hpersonal. apply add_to_room_elem. by right.
  - rewrite add_to_room_other by (simpl; discriminate).
    apply add_to_room_elem. by right.
  - apply add_to_room_elem. by right.
  - intros s. rewrite Hpersonal.
    destruct (rooms st !! ("user:" +:+ me)) as [[|s0 rest]|] eqn:E; try done.
    destruct (add_to_room_head sid _ _ _ _ E) as (rest' & ->). done.
  - intros Hempty Hin. rewrite Hpersonal.
    pose proof (add_to_room_members sid ("user:" +:+ me) (rooms st)) as Hm.
    rewrite Hempty in Hm. rewrite bool_decide_eq_false_2 in Hm
      by apply not_elem_of_nil. simpl in Hm.
    destruct (Server.add_to_room sid ("user:" +:+ me) (rooms st) !! ("user:" +:+ me))
      as [ms|]; simpl in Hm; [|done]. subst ms.
    by rewrite bool_decide_eq_true_2.
  - intros u Hu. rewrite !add_to_room_other; try done; try (simpl; discriminate).
    simpl. intros [= E]. by apply Hu.
Qed.

(** *** Who is joined to a created chat *)





End ServerExtras.

Lemma create_chat_failure_witness :
  last (trace_of (Server.on_create_chat Sample.runtime_up Sample.s1
                    Example.not_a_list Sample.running))
  = Some (SocketEmit "s1" "error" create_failed).
Proof.
  apply (create_chat_failure Sample.runtime_up Sample.s1 Example.not_a_list
           Sample.running).
  right. intros ids. discriminate.
Defined.

Lemma connection_joins_witness :
  user_socket Sample.runtime_up
    (state_of (Server.on_connection Sample.runtime_up Sample.s1 Example.lobby))
    (Server.userId Sample.s1) = Some "s1".
Proof.
  apply (connection_joins Sample.runtime_up Sample.s1 Example.lobby).
  - reflexivity.
  - change ("s1" ∈ ({["s1"]} : gset string)). by apply elem_of_singleton_2.
Defined.


(** ** server.js: the authentication middleware *)

Section Authentication.

Variable R : runtime.

Implicit Types (auth : jsval) (sid : string) (st : state).

(** X19. The middleware turns a connection down, with
    [Authentication error], exactly when the handshake carries no truthy
    token; every connection it lets through gets the same user, so every
    admitted socket joins the one personal room [user:user123]. *)
Theorem middleware_admits_truthy_tokens auth sid st :
  (Auth.middleware auth = Auth.Rejected "Authentication error"
   ↔ truthy (Server.prop auth "token") = false)
  ∧ (∀ s, Auth.admitted sid auth = Some s →
          truthy (Server.prop auth "token") = true
          ∧ Server.userId s = JStr "user123"
          ∧ Server.socket_id s
              ∈ room_members (state_of (Server.on_connection R s st))
                  "user:user123").
Proof.
  unfold Auth.admitted, Auth.middleware. split.
  - by destruct (truthy (Server.prop auth "token")).
  - intros s. destruct (truthy (Server.prop auth "token")); simpl; [|done].
    intros [= <-]. split; [done|]. split; [done|].
    rewrite on_connection_state. unfold state_of, room_members. simpl.
    rewrite !add_to_room_other by discriminate.
    apply add_to_room_elem. by right.
Qed.

End Authentication.

Lemma middleware_admits_truthy_tokens_witness :
  Auth.middleware (JObj [("token", JStr "")])
  = Auth.Rejected "Authentication error"
  ∧ Auth.admitted "s9" (JObj []) = None.
Proof.
  split.
  - by apply (middleware_admits_truthy_tokens Sample.runtime_up
                (JObj [("token", JStr "")]) "s9" Sample.fresh).
  - reflexivity.
Defined.

